(** * Dispatch scheduler of llumnix: a shallow embedding and its properties

    The development follows [llumnix/global_scheduler/dispatch_scheduler.py]
    and the [GlobalSchedulerConfig] class of [llumnix/internal_config.py].

    Modelling choices, all taken from the Python source:
    - a [Set[str]] is a [gset string]; the only place where the iteration
      order of a set is observed is [next(iter(...))] in [remove_instance],
      which yields an arbitrary element and is driven by a draw [r];
    - a [Dict[str, _]] is an association list in insertion order (the order
      decides the ties of [min]/[max] and the order of [values()]);
    - Python integers are [Z]; the float load score and the float thresholds
      are rationals [Q] (only their order and their negation are used);
    - a method is a function from the object to the mutated object and an
      [outcome]: the value returned or the exception raised.  The mutated
      object is kept when an exception is raised, as in Python. *)

From Stdlib Require Import ZArith QArith Lia Sorted.
From Stdlib Require OrderedTypeEx.
From stdpp Require Import gmap strings list.

Set Warnings "-clear-no-such-hyp".

Close Scope Q_scope.
Open Scope string_scope.
Open Scope Z_scope.

(** ** Python preliminaries *)

Inductive PyExn : Set :=
| KeyError
| StopIteration
| ValueError
| IndexError
| ZeroDivisionError
| TypeError.

Inductive outcome (A : Type) : Type :=
| Return (a : A)
| Raise (e : PyExn).
Arguments Return {A} a.
Arguments Raise {A} e.

(** [needle in s] on strings: [needle] occurs as a contiguous substring. *)
Fixpoint str_contains (needle s : string) : bool :=
  String.prefix needle s ||
  match s with
  | EmptyString => false
  | String _ s' => str_contains needle s'
  end.

(** *** Dictionaries with string keys, in insertion order *)

Section Dict.
Context {V : Type}.

Definition dict_keys (d : list (string * V)) : list string := map fst d.

Definition dict_values (d : list (string * V)) : list V := map snd d.

Fixpoint dict_get (d : list (string * V)) (k : string) : option V :=
  match d with
  | [] => None
  | (k', v) :: d' => if String.eqb k' k then Some v else dict_get d' k
  end.

Definition dict_contains (d : list (string * V)) (k : string) : bool :=
  match dict_get d k with Some _ => true | None => false end.

(** [d[k] = v]: an existing key keeps its position, a new key goes last. *)
Fixpoint dict_setitem (d : list (string * V)) (k : string) (v : V)
  : list (string * V) :=
  match d with
  | [] => [(k, v)]
  | (k', v') :: d' =>
      if String.eqb k' k then (k', v) :: d'
      else (k', v') :: dict_setitem d' k v
  end.

(** [del d[k]], used only under [k in d]. *)
Fixpoint dict_delitem (d : list (string * V)) (k : string)
  : list (string * V) :=
  match d with
  | [] => []
  | (k', v') :: d' =>
      if String.eqb k' k then dict_delitem d' k
      else (k', v') :: dict_delitem d' k
  end.
End Dict.

(** *** [min], [max], [sorted], [random.choice], [next(iter(_))] *)

(** [max(xs, key=key)]: the first element whose key is maximal. *)
Fixpoint py_max_from {A : Type} (key : A → Z) (best : A) (xs : list A) : A :=
  match xs with
  | [] => best
  | x :: xs' => py_max_from key (if key best <? key x then x else best) xs'
  end.

Definition py_max {A : Type} (key : A → Z) (xs : list A) : outcome A :=
  match xs with
  | [] => Raise ValueError
  | x :: xs' => Return (py_max_from key x xs')
  end.

(** [min(xs, key=key)]: the first element whose key is minimal. *)
Fixpoint py_min_from {A : Type} (key : A → Z) (best : A) (xs : list A) : A :=
  match xs with
  | [] => best
  | x :: xs' => py_min_from key (if key x <? key best then x else best) xs'
  end.

Definition py_min {A : Type} (key : A → Z) (xs : list A) : outcome A :=
  match xs with
  | [] => Raise ValueError
  | x :: xs' => Return (py_min_from key x xs')
  end.

(** [sorted] is a stable sort; on a list and a strict order [lt] on keys the
    result of a stable sort is unique, so a stable insertion sort stands for
    it.  [x] is inserted in front of the part sorted so far, before the
    first element that is not smaller than it. *)
Fixpoint sorted_insert {A : Type} (lt : A → A → bool) (x : A) (l : list A)
  : list A :=
  match l with
  | [] => [x]
  | y :: l' => if lt y x then y :: sorted_insert lt x l' else x :: y :: l'
  end.

Fixpoint py_sorted_asc {A : Type} (lt : A → A → bool) (l : list A) : list A :=
  match l with
  | [] => []
  | x :: l' => sorted_insert lt x (py_sorted_asc lt l')
  end.

(** [sorted(l, key=..., reverse=descending)]; [reverse=True] keeps the
    original order of elements with equal keys. *)
Definition py_sorted {A : Type} (lt : A → A → bool) (reverse : bool)
    (l : list A) : list A :=
  if reverse then rev (py_sorted_asc lt (rev l)) else py_sorted_asc lt l.

(** [random.choice(l)]; [r] is the draw of the random source. *)
Definition random_choice {A : Type} (r : nat) (l : list A) : outcome A :=
  match l !! (r `mod` length l)%nat with
  | Some x => Return x
  | None => Raise IndexError
  end.

(** [next(iter(X))] for a set [X]: some element of [X], which one is fixed by
    the draw [r]; [StopIteration] on the empty set. *)
Definition next_iter (r : nat) (X : gset string) : outcome string :=
  match elements X !! (r `mod` size X)%nat with
  | Some x => Return x
  | None => Raise StopIteration
  end.

(** ** [llumnix.instance_info] *)

(** The scheduler only stores the reference to the load calculator. *)
Inductive InstanceLoadCalculator : Set := mkInstanceLoadCalculator.

(** The attributes of [InstanceInfo] that the dispatch scheduler reads. *)
Record InstanceInfo : Set := mkInstanceInfo {
  instance_id : string;
  instance_load_dispatch_scale : Q;
  num_waiting_requests : Z
}.

Definition Qltb (x y : Q) : bool := Qnum x * QDen y <? Qnum y * QDen x.

(** ** Dispatch policies *)

(** [DispatchPolicy.__init__] sets [instance_ptr]; [RoundRobin] adds the
    attribute [prev_instance_idx]. *)
Inductive DispatchPolicy : Set :=
| Flood (instance_ptr : Z)
| Balanced (instance_ptr : Z)
| Load (instance_ptr : Z)
| Queue (instance_ptr : Z)
| RoundRobin (instance_ptr : Z) (prev_instance_idx : Z).

(** [instance_num_requests.get] as the key function of [max] and [min]: it
    is only applied to the keys of the dictionary, where it finds the
    counter. *)
Definition counts_get (d : list (string * Z)) (k : string) : Z :=
  default 0 (dict_get d k).

Definition Flood_dispatch (instance_num_requests : list (string * Z))
    (sorted_instance_infos : option (list InstanceInfo)) : outcome string :=
  py_max (counts_get instance_num_requests) (dict_keys instance_num_requests).

Definition Balanced_dispatch (instance_num_requests : list (string * Z))
    (sorted_instance_infos : option (list InstanceInfo)) : outcome string :=
  py_min (counts_get instance_num_requests) (dict_keys instance_num_requests).

Definition Load_dispatch (instance_num_requests : list (string * Z))
    (sorted_instance_infos : option (list InstanceInfo)) : outcome string :=
  match sorted_instance_infos with
  | None => Raise TypeError
  | Some [] => Raise IndexError
  | Some (info :: _) => Return (instance_id info)
  end.

Definition Queue_dispatch (r : nat)
    (instance_num_requests : list (string * Z))
    (sorted_instance_infos : option (list InstanceInfo)) : outcome string :=
  match sorted_instance_infos with
  | None => Raise TypeError
  | Some [] => Raise IndexError
  | Some ((info0 :: _) as infos) =>
      let min_queue_size := num_waiting_requests info0 in
      let instance_id_list :=
        map instance_id
          (filter (λ info, num_waiting_requests info = min_queue_size) infos) in
      random_choice r instance_id_list
  end.

(** Returns the new value of [prev_instance_idx] with the outcome. *)
Definition RoundRobin_dispatch (prev_instance_idx : Z)
    (instance_num_requests : list (string * Z))
    (sorted_instance_infos : option (list InstanceInfo))
  : Z * outcome string :=
  let all_instance_ids :=
    py_sorted String.ltb false (dict_keys instance_num_requests) in
  let n := Z.of_nat (length all_instance_ids) in
  if n =? 0 then (prev_instance_idx, Raise ZeroDivisionError)
  else
    let cur_instance_idx := (prev_instance_idx + 1) `mod` n in
    match all_instance_ids !! Z.to_nat cur_instance_idx with
    | Some target_instance_id => (cur_instance_idx, Return target_instance_id)
    | None => (prev_instance_idx, Raise IndexError)
    end.

(** The call [self.dispatch_policy.dispatch(...)], by the class of the
    policy object. *)
Definition policy_dispatch (r : nat) (p : DispatchPolicy)
    (instance_num_requests : list (string * Z))
    (sorted_instance_infos : option (list InstanceInfo))
  : DispatchPolicy * outcome string :=
  match p with
  | Flood _ => (p, Flood_dispatch instance_num_requests sorted_instance_infos)
  | Balanced _ =>
      (p, Balanced_dispatch instance_num_requests sorted_instance_infos)
  | Load _ => (p, Load_dispatch instance_num_requests sorted_instance_infos)
  | Queue _ =>
      (p, Queue_dispatch r instance_num_requests sorted_instance_infos)
  | RoundRobin ptr prev =>
      let '(prev', res) :=
        RoundRobin_dispatch prev instance_num_requests sorted_instance_infos in
      (RoundRobin ptr prev', res)
  end.

(** [DispatchPolicyFactory.get_policy]: a lookup in [_POLICY_REGISTRY]. *)
Definition get_policy (policy_name : string) : outcome DispatchPolicy :=
  if String.eqb policy_name "flood" then Return (Flood 0)
  else if String.eqb policy_name "balanced" then Return (Balanced 0)
  else if String.eqb policy_name "load" then Return (Load 0)
  else if String.eqb policy_name "queue" then Return (Queue 0)
  else if String.eqb policy_name "rr" then Return (RoundRobin 0 (-1))
  else Raise KeyError.

(** ** The dispatch scheduler *)

Record DispatchScheduler : Type := mkDispatchScheduler {
  dispatch_policy : DispatchPolicy;
  instance_load_calculator : InstanceLoadCalculator;
  num_instances : Z;
  instance_id_set : gset string;
  available_dispatch_instance_set : gset string;
  num_dispatch_instances : Z;
  instance_info : list (string * InstanceInfo);
  sorted_instance_infos : option (list InstanceInfo);
  num_requests : Z;
  instance_num_requests : list (string * Z)
}.

(** Attribute assignments [self.x = v]. *)
Definition set_dispatch_policy (v : DispatchPolicy) (s : DispatchScheduler) :=
  mkDispatchScheduler v (instance_load_calculator s) (num_instances s)
    (instance_id_set s) (available_dispatch_instance_set s)
    (num_dispatch_instances s) (instance_info s) (sorted_instance_infos s)
    (num_requests s) (instance_num_requests s).

Definition set_num_instances (v : Z) (s : DispatchScheduler) :=
  mkDispatchScheduler (dispatch_policy s) (instance_load_calculator s) v
    (instance_id_set s) (available_dispatch_instance_set s)
    (num_dispatch_instances s) (instance_info s) (sorted_instance_infos s)
    (num_requests s) (instance_num_requests s).

Definition set_instance_id_set (v : gset string) (s : DispatchScheduler) :=
  mkDispatchScheduler (dispatch_policy s) (instance_load_calculator s)
    (num_instances s) v (available_dispatch_instance_set s)
    (num_dispatch_instances s) (instance_info s) (sorted_instance_infos s)
    (num_requests s) (instance_num_requests s).

Definition set_available_dispatch_instance_set (v : gset string)
    (s : DispatchScheduler) :=
  mkDispatchScheduler (dispatch_policy s) (instance_load_calculator s)
    (num_instances s) (instance_id_set s) v
    (num_dispatch_instances s) (instance_info s) (sorted_instance_infos s)
    (num_requests s) (instance_num_requests s).

Definition set_instance_info (v : list (string * InstanceInfo))
    (s : DispatchScheduler) :=
  mkDispatchScheduler (dispatch_policy s) (instance_load_calculator s)
    (num_instances s) (instance_id_set s) (available_dispatch_instance_set s)
    (num_dispatch_instances s) v (sorted_instance_infos s)
    (num_requests s) (instance_num_requests s).

Definition set_sorted_instance_infos (v : option (list InstanceInfo))
    (s : DispatchScheduler) :=
  mkDispatchScheduler (dispatch_policy s) (instance_load_calculator s)
    (num_instances s) (instance_id_set s) (available_dispatch_instance_set s)
    (num_dispatch_instances s) (instance_info s) v
    (num_requests s) (instance_num_requests s).

Definition set_num_requests (v : Z) (s : DispatchScheduler) :=
  mkDispatchScheduler (dispatch_policy s) (instance_load_calculator s)
    (num_instances s) (instance_id_set s) (available_dispatch_instance_set s)
    (num_dispatch_instances s) (instance_info s) (sorted_instance_infos s)
    v (instance_num_requests s).

Definition set_instance_num_requests (v : list (string * Z))
    (s : DispatchScheduler) :=
  mkDispatchScheduler (dispatch_policy s) (instance_load_calculator s)
    (num_instances s) (instance_id_set s) (available_dispatch_instance_set s)
    (num_dispatch_instances s) (instance_info s) (sorted_instance_infos s)
    (num_requests s) v.

(** [DispatchScheduler.__init__] *)
Definition DispatchScheduler_init (dispatch_policy : string)
    (instance_load_calculator : InstanceLoadCalculator)
    (num_dispatch_instances : Z) : outcome DispatchScheduler :=
  match get_policy dispatch_policy with
  | Raise e => Raise e
  | Return policy =>
      Return (mkDispatchScheduler policy instance_load_calculator 0 ∅ ∅
                num_dispatch_instances [] None 0 [])
  end.

(** The test [isinstance(self.dispatch_policy, (Load, Queue))]. *)
Definition is_Load_or_Queue (p : DispatchPolicy) : bool :=
  match p with
  | Load _ | Queue _ => true
  | _ => false
  end.

Definition is_Queue (p : DispatchPolicy) : bool :=
  match p with
  | Queue _ => true
  | _ => false
  end.

(** The two attributes [_sort_instance_infos] sorts by. *)
Inductive key_attr : Set :=
| attr_num_waiting_requests
| attr_instance_load_dispatch_scale.

(** [getattr(a, key_attr) < getattr(b, key_attr)] *)
Definition getattr_lt (k : key_attr) (a b : InstanceInfo) : bool :=
  match k with
  | attr_num_waiting_requests =>
      num_waiting_requests a <? num_waiting_requests b
  | attr_instance_load_dispatch_scale =>
      Qltb (instance_load_dispatch_scale a) (instance_load_dispatch_scale b)
  end.

Definition _sort_instance_infos (descending : bool) (self : DispatchScheduler)
  : DispatchScheduler :=
  let instance_infos := dict_values (instance_info self) in
  let available_instance_infos :=
    filter (λ info, instance_id info ∈ available_dispatch_instance_set self)
      instance_infos in
  let key_attr :=
    if is_Queue (dispatch_policy self) then attr_num_waiting_requests
    else attr_instance_load_dispatch_scale in
  set_sorted_instance_infos
    (Some (py_sorted (getattr_lt key_attr) descending available_instance_infos))
    self.

(** [dispatch]: the periodic log lines are not part of the state. *)
Definition dispatch (r : nat) (self : DispatchScheduler)
  : DispatchScheduler * outcome string :=
  let self := set_num_requests (num_requests self + 1) self in
  let self :=
    if is_Load_or_Queue (dispatch_policy self)
    then _sort_instance_infos false self else self in
  let '(policy, res) :=
    policy_dispatch r (dispatch_policy self) (instance_num_requests self)
      (sorted_instance_infos self) in
  let self := set_dispatch_policy policy self in
  match res with
  | Raise e => (self, Raise e)
  | Return dispatch_instance_id =>
      match dict_get (instance_num_requests self) dispatch_instance_id with
      | None => (self, Raise KeyError)
      | Some n =>
          (set_instance_num_requests
             (dict_setitem (instance_num_requests self) dispatch_instance_id
                (n + 1)) self,
           Return dispatch_instance_id)
      end
  end.

Definition update_instance_infos (instance_info : list (string * InstanceInfo))
    (self : DispatchScheduler) : DispatchScheduler * outcome unit :=
  (set_instance_info instance_info self, Return tt).

Definition add_instance (instance_id : string) (self : DispatchScheduler)
  : DispatchScheduler * outcome unit :=
  let self := set_instance_id_set ({[instance_id]} ∪ instance_id_set self) self in
  let self := set_num_instances (Z.of_nat (size (instance_id_set self))) self in
  if negb (str_contains "decode" instance_id) then
    if (num_dispatch_instances self <=? 0)
       || ((0 <? num_dispatch_instances self)
           && (Z.of_nat (size (available_dispatch_instance_set self))
               <? num_dispatch_instances self))
    then
      let self :=
        set_available_dispatch_instance_set
          ({[instance_id]} ∪ available_dispatch_instance_set self) self in
      let self :=
        set_instance_num_requests
          (dict_setitem (instance_num_requests self) instance_id 0) self in
      (self, Return tt)
    else (self, Return tt)
  else (self, Return tt).

(** [remove_instance]; [r] decides which element [next(iter(...))] yields.
    The warning of the [else] branch is a log line. *)
Definition remove_instance (r : nat) (instance_id : string)
    (self : DispatchScheduler) : DispatchScheduler * outcome unit :=
  if bool_decide (instance_id ∈ instance_id_set self) then
    let self :=
      set_instance_id_set (instance_id_set self ∖ {[instance_id]}) self in
    let self :=
      set_num_instances (Z.of_nat (size (instance_id_set self))) self in
    let self :=
      if dict_contains (instance_num_requests self) instance_id
      then set_instance_num_requests
             (dict_delitem (instance_num_requests self) instance_id) self
      else self in
    if bool_decide (instance_id ∈ available_dispatch_instance_set self) then
      let self :=
        set_available_dispatch_instance_set
          (available_dispatch_instance_set self ∖ {[instance_id]}) self in
      if num_dispatch_instances self <=? num_instances self then
        match next_iter r (instance_id_set self
                           ∖ available_dispatch_instance_set self) with
        | Raise e => (self, Raise e)
        | Return free_instance_id =>
            (set_available_dispatch_instance_set
               ({[free_instance_id]} ∪ available_dispatch_instance_set self)
               self,
             Return tt)
        end
      else (self, Return tt)
    else (self, Return tt)
  else (self, Raise KeyError).

(** ** Histories of calls *)

Inductive call : Type :=
| call_add_instance (instance_id : string)
| call_remove_instance (instance_id : string) (r : nat)
| call_dispatch (r : nat)
| call_update_instance_infos (instance_info : list (string * InstanceInfo)).

(** The scheduler after a call; it persists whether the call returned or
    raised. *)
Definition after (self : DispatchScheduler) (c : call) : DispatchScheduler :=
  match c with
  | call_add_instance i => fst (add_instance i self)
  | call_remove_instance i r => fst (remove_instance r i self)
  | call_dispatch r => fst (dispatch r self)
  | call_update_instance_infos snap => fst (update_instance_infos snap self)
  end.

Definition after_all (self : DispatchScheduler) (cs : list call)
  : DispatchScheduler :=
  foldl after self cs.

(** The schedulers that a history of calls on a constructed scheduler
    leads to. *)
Inductive reachable : DispatchScheduler → Prop :=
| reachable_init name calc C s :
    DispatchScheduler_init name calc C = Return s → reachable s
| reachable_after s c : reachable s → reachable (after s c).

(** ** [llumnix/internal_config.py] *)

Module InternalConfig.

Record GlobalSchedulerConfig : Set := mkGlobalSchedulerConfig {
  initial_instances : Z;
  load_metric : string;
  dispatch_policy : string;
  pair_migration_policy : string;
  migrate_out_load_threshold : Q;
  enable_defrag : bool;
  scaling_policy : string;
  scale_up_threshold : Q;
  scale_down_threshold : Q;
  enable_pd_disagg : bool;
  num_dispatch_instances : Z;
  migration_backend : string
}.

(** [GlobalSchedulerConfig.__init__] *)
Definition GlobalSchedulerConfig_init
    (initial_instances : Z) (load_metric : string) (dispatch_policy : string)
    (num_dispatch_instances : Z) (pair_migration_policy : string)
    (migrate_out_threshold : Q) (enable_defrag : bool)
    (scaling_policy : string) (scale_up_threshold : Q)
    (scale_down_threshold : Q) (enable_pd_disagg : bool)
    (migration_backend : string) : GlobalSchedulerConfig :=
  {| initial_instances := initial_instances;
     load_metric := load_metric;
     dispatch_policy := dispatch_policy;
     pair_migration_policy := pair_migration_policy;
     migrate_out_load_threshold := (migrate_out_threshold * (-1))%Q;
     enable_defrag := enable_defrag;
     scaling_policy := scaling_policy;
     scale_up_threshold := (scale_up_threshold * (-1))%Q;
     scale_down_threshold := (scale_down_threshold * (-1))%Q;
     enable_pd_disagg := enable_pd_disagg;
     num_dispatch_instances := num_dispatch_instances;
     migration_backend := migration_backend |}.

End InternalConfig.

(** ** Measures used in the statements *)

(** Largest and smallest value of a dictionary of counters. *)
Definition max_count (d : list (string * Z)) : Z :=
  match dict_values d with
  | [] => 0
  | v :: vs => foldr Z.max v vs
  end.

Definition min_count (d : list (string * Z)) : Z :=
  match dict_values d with
  | [] => 0
  | v :: vs => foldr Z.min v vs
  end.

(** [rs]-many calls of [dispatch] in a row, with the outcome of each. *)
Fixpoint dispatch_many (rs : list nat) (self : DispatchScheduler)
  : DispatchScheduler * list (outcome string) :=
  match rs with
  | [] => (self, [])
  | r :: rs' =>
      let '(self1, res) := dispatch r self in
      let '(self2, ress) := dispatch_many rs' self1 in
      (self2, res :: ress)
  end.

Definition returned {A : Type} (o : outcome A) : Prop :=
  match o with Return _ => True | Raise _ => False end.

(** A fresh scheduler for a policy object, as [__init__] builds it. *)
Definition fresh (policy : DispatchPolicy) (C : Z) : DispatchScheduler :=
  mkDispatchScheduler policy mkInstanceLoadCalculator 0 ∅ ∅ C [] None 0 [].

(** The list [available_instance_infos] of [_sort_instance_infos]: the
    values of the snapshot, in its order, whose id is eligible. *)
Definition available_instance_infos (s : DispatchScheduler)
  : list InstanceInfo :=
  filter (λ info, instance_id info ∈ available_dispatch_instance_set s)
    (dict_values (instance_info s)).


(** All counters are [m] or [m + 1]. *)
Definition near_level (m : Z) (d : list (string * Z)) : Prop :=
  ∀ k, k ∈ dict_keys d → m ≤ counts_get d k ≤ m + 1.

(** The sorted view that [dispatch] hands to the policy. *)
Definition dispatch_view (s : DispatchScheduler) : option (list InstanceInfo) :=
  if is_Load_or_Queue (dispatch_policy s)
  then sorted_instance_infos (_sort_instance_infos false s)
  else sorted_instance_infos s.

(** What every history of calls keeps true of the scheduler (shown below):
    the counters are a dictionary whose keys are eligible ids, none of them
    decode-only; the eligible ids are registered; and a positive capacity
    bounds their number. *)
Record consistent (s : DispatchScheduler) : Prop := mkConsistent {
  counts_eligible :
    ∀ k, k ∈ dict_keys (instance_num_requests s) →
         k ∈ available_dispatch_instance_set s;
  counts_NoDup : NoDup (dict_keys (instance_num_requests s));
  counts_not_decode :
    ∀ k, k ∈ dict_keys (instance_num_requests s) →
         str_contains "decode" k = false;
  eligible_registered :
    available_dispatch_instance_set s ⊆ instance_id_set s;
  eligible_bounded :
    0 < num_dispatch_instances s →
    Z.of_nat (size (available_dispatch_instance_set s))
    ≤ num_dispatch_instances s
}.

(** A call other than [remove_instance]. *)
Definition not_a_removal (c : call) : bool :=
  match c with
  | call_remove_instance _ _ => false
  | _ => true
  end.

(** Two histories used as examples: three instances on a fresh scheduler,
    and the removal of the first of them. *)
Definition three_instances : list call :=
  [call_add_instance "a"; call_add_instance "b"; call_add_instance "c"].

Definition three_instances_less_one : list call :=
  [call_add_instance "a"; call_add_instance "b"; call_add_instance "c";
   call_remove_instance "a" 0].

(** The sum of the request counters. *)
Definition total_count (d : list (string * Z)) : Z :=
  foldr Z.add 0 (dict_values d).

(** The list [all_instance_ids] of [RoundRobin.dispatch]. *)
Definition round_robin_order (s : DispatchScheduler) : list string :=
  py_sorted String.ltb false (dict_keys (instance_num_requests s)).


(** A snapshot with two instances, "b" less loaded than "a". *)
Definition two_loads : list (string * InstanceInfo) :=
  [("a", mkInstanceInfo "a" (3 # 1) 2); ("b", mkInstanceInfo "b" (1 # 2) 2)].

Definition two_loaded_instances : list call :=
  [call_add_instance "a"; call_add_instance "b";
   call_update_instance_infos two_loads].

(** The ids of a set that are not decode-only. *)
Definition non_decode_only (X : gset string) : gset string :=
  filter (λ i, str_contains "decode" i = false) X.

(** * Properties *)

(** ** Dictionaries *)

Section DictFacts.
Context {V : Type}.
Implicit Types (d : list (string * V)) (k : string) (v : V).

Lemma dict_get_Some_keys d k v : dict_get d k = Some v → k ∈ dict_keys d.
Proof.
  induction d as [|[k' v'] d IH]; simpl; [done|].
  destruct (String.eqb_spec k' k) as [->|Hne]; intros H.
  - apply list_elem_of_here.
  - apply list_elem_of_further; auto.
Qed.

Lemma dict_get_None_keys d k : dict_get d k = None ↔ k ∉ dict_keys d.
Proof.
  induction d as [|[k' v'] d IH]; simpl.
  - split; [intros _; apply not_elem_of_nil | done].
  - rewrite not_elem_of_cons.
    destruct (String.eqb_spec k' k) as [->|Hne]; [naive_solver|].
    rewrite IH. naive_solver.
Qed.

Lemma dict_contains_keys d k : dict_contains d k = true ↔ k ∈ dict_keys d.
Proof.
  unfold dict_contains. destruct (dict_get d k) eqn:E.
  - split; [intros _; eauto using dict_get_Some_keys | done].
  - apply dict_get_None_keys in E. split; [done | intros; contradiction].
Qed.

Lemma dict_keys_setitem d k v k' :
  k' ∈ dict_keys (dict_setitem d k v) ↔ k' = k ∨ k' ∈ dict_keys d.
Proof.
  induction d as [|[k0 v0] d IH]; simpl.
  - rewrite list_elem_of_singleton. split; [auto|].
    intros [?|H]; [done | by apply not_elem_of_nil in H].
  - destruct (String.eqb_spec k0 k) as [->|Hne]; simpl.
    + rewrite !elem_of_cons. naive_solver.
    + rewrite !elem_of_cons, IH. naive_solver.
Qed.

Lemma dict_keys_setitem_in d k v :
  k ∈ dict_keys d → dict_keys (dict_setitem d k v) = dict_keys d.
Proof.
  induction d as [|[k0 v0] d IH]; simpl; intros H.
  - by apply not_elem_of_nil in H.
  - destruct (String.eqb_spec k0 k) as [->|Hne]; simpl; [done|].
    f_equal. apply IH. apply elem_of_cons in H as [?|?]; congruence.
Qed.

Lemma dict_keys_delitem d k k' :
  k' ∈ dict_keys (dict_delitem d k) ↔ k' ≠ k ∧ k' ∈ dict_keys d.
Proof.
  induction d as [|[k0 v0] d IH]; simpl.
  - split; [intros H; by apply not_elem_of_nil in H | intros [_ H]; done].
  - destruct (String.eqb_spec k0 k) as [->|Hne]; simpl.
    + rewrite IH, elem_of_cons. naive_solver.
    + rewrite !elem_of_cons, IH. naive_solver.
Qed.

Lemma dict_get_setitem d k v k' :
  dict_get (dict_setitem d k v) k' =
  if String.eqb k k' then Some v else dict_get d k'.
Proof.
  induction d as [|[k0 v0] d IH]; simpl; [done|].
  destruct (String.eqb_spec k0 k) as [->|Hne]; simpl.
  - by destruct (String.eqb k k').
  - rewrite IH. destruct (String.eqb_spec k0 k') as [->|Hne'];
      [|done]. by destruct (String.eqb_spec k k').
Qed.

Lemma dict_get_delitem d k k' :
  dict_get (dict_delitem d k) k' =
  if String.eqb k k' then None else dict_get d k'.
Proof.
  induction d as [|[k0 v0] d IH]; simpl.
  - by destruct (String.eqb k k').
  - destruct (String.eqb_spec k0 k) as [->|Hne]; simpl.
    + rewrite IH. destruct (String.eqb k k'); done.
    + rewrite IH. destruct (String.eqb_spec k0 k') as [->|Hne']; [|done].
      by destruct (String.eqb_spec k k').
Qed.

Lemma dict_keys_NoDup_setitem d k v :
  NoDup (dict_keys d) → NoDup (dict_keys (dict_setitem d k v)).
Proof.
  induction d as [|[k0 v0] d IH]; simpl; intros H.
  - apply NoDup_singleton.
  - apply NoDup_cons in H as [Hnotin Hnd].
    destruct (String.eqb_spec k0 k) as [->|Hne]; simpl.
    + by apply NoDup_cons.
    + apply NoDup_cons. split; [|auto].
      rewrite dict_keys_setitem. naive_solver.
Qed.

Lemma dict_keys_NoDup_delitem d k :
  NoDup (dict_keys d) → NoDup (dict_keys (dict_delitem d k)).
Proof.
  induction d as [|[k0 v0] d IH]; simpl; intros H; [done|].
  apply NoDup_cons in H as [Hnotin Hnd].
  destruct (String.eqb_spec k0 k) as [->|Hne]; simpl; [auto|].
  apply NoDup_cons. split; [|auto].
  rewrite dict_keys_delitem. naive_solver.
Qed.

(** In a dictionary every key has one entry, which [dict_get] finds. *)
Lemma dict_get_entry d k v :
  NoDup (dict_keys d) → (k, v) ∈ d → dict_get d k = Some v.
Proof.
  induction d as [|[k0 v0] d IH]; simpl; intros Hnd Hin.
  - by apply not_elem_of_nil in Hin.
  - apply NoDup_cons in Hnd as [Hnotin Hnd].
    apply elem_of_cons in Hin as [Heq|Hin].
    + inversion Heq; subst. by rewrite String.eqb_refl.
    + destruct (String.eqb_spec k0 k) as [->|Hne]; [|auto].
      exfalso. apply Hnotin. unfold dict_keys.
      apply list_elem_of_fmap. by exists (k, v).
Qed.
End DictFacts.

(** ** Sets and [next(iter(_))] *)

Lemma next_iter_Return r X x : next_iter r X = Return x → x ∈ X.
Proof.
  unfold next_iter. destruct (elements X !! _) as [y|] eqn:E; [|done].
  intros [= <-]. apply elem_of_elements. by eapply list_elem_of_lookup_2.
Qed.

Lemma next_iter_Raise r X e :
  next_iter r X = Raise e → e = StopIteration ∧ X = ∅.
Proof.
  unfold next_iter. destruct (elements X !! _) as [y|] eqn:E; [done|].
  intros [= <-]. split; [done|].
  apply lookup_ge_None in E. unfold size, set_size in E. simpl in E.
  destruct (elements X) as [|z l] eqn:El.
  - by apply elements_empty_inv, leibniz_equiv in El.
  - exfalso. simpl in E.
    pose proof (Nat.mod_upper_bound r (S (length l))). lia.
Qed.

Lemma next_iter_nonempty r X : X ≠ ∅ → ∃ x, next_iter r X = Return x ∧ x ∈ X.
Proof.
  intros HX. destruct (next_iter r X) as [x|e] eqn:E.
  - exists x. eauto using next_iter_Return.
  - apply next_iter_Raise in E as [_ ?]. contradiction.
Qed.

(** Every element of a set can be the one that [next(iter(_))] yields. *)
Lemma next_iter_any X x : x ∈ X → ∃ r, next_iter r X = Return x.
Proof.
  intros Hx. apply elem_of_elements, list_elem_of_lookup in Hx as [i Hi].
  exists i. unfold next_iter.
  assert (i < size X)%nat as Hlt by (by apply lookup_lt_Some in Hi).
  rewrite Nat.mod_small by done. by rewrite Hi.
Qed.

Lemma next_iter_singleton r x : next_iter r {[x]} = Return x.
Proof.
  unfold next_iter. rewrite size_singleton, Nat.mod_1_r, elements_singleton.
  done.
Qed.

Lemma next_iter_empty r : next_iter r ∅ = Raise StopIteration.
Proof. unfold next_iter. by rewrite elements_empty. Qed.

Lemma size_insert_le (x : string) (X : gset string) :
  (size ({[x]} ∪ X) ≤ S (size X))%nat.
Proof.
  destruct (decide (x ∈ X)) as [Hin|Hnotin].
  - replace ({[x]} ∪ X) with X by set_solver. lia.
  - rewrite size_union by set_solver. rewrite size_singleton. lia.
Qed.

Lemma size_remove (x : string) (X : gset string) :
  x ∈ X → S (size (X ∖ {[x]})) = size X.
Proof.
  intros Hin. rewrite size_difference by set_solver.
  rewrite size_singleton.
  assert (size X ≠ 0%nat); [|lia].
  intros Hz. apply size_empty_inv in Hz. set_solver.
Qed.

(** ** What each method leaves alone *)

Lemma policy_dispatch_class r p d sv :
  is_Load_or_Queue (fst (policy_dispatch r p d sv)) = is_Load_or_Queue p
  ∧ is_Queue (fst (policy_dispatch r p d sv)) = is_Queue p.
Proof.
  destruct p; simpl; try done.
  by destruct (RoundRobin_dispatch _ _ _).
Qed.

(** [dispatch] touches the request counters, the sorted view and the state
    of the policy; it adds or removes no key of the counters. *)
Lemma dispatch_frame r s :
  let s' := fst (dispatch r s) in
  instance_id_set s' = instance_id_set s
  ∧ available_dispatch_instance_set s' = available_dispatch_instance_set s
  ∧ num_dispatch_instances s' = num_dispatch_instances s
  ∧ num_instances s' = num_instances s
  ∧ instance_info s' = instance_info s
  ∧ num_requests s' = num_requests s + 1
  ∧ dict_keys (instance_num_requests s') = dict_keys (instance_num_requests s).
Proof.
  unfold dispatch. simpl.
  destruct (is_Load_or_Queue (dispatch_policy s)); simpl;
    destruct (policy_dispatch _ _ _ _) as [p [i|e]]; simpl; try done;
    destruct (dict_get (instance_num_requests s) i) as [n|] eqn:E; simpl;
    try done;
    repeat split; try done;
    by rewrite dict_keys_setitem_in by eauto using dict_get_Some_keys.
Qed.

Lemma add_instance_frame i s :
  let s' := fst (add_instance i s) in
  instance_id_set s' = {[i]} ∪ instance_id_set s
  ∧ num_dispatch_instances s' = num_dispatch_instances s
  ∧ dispatch_policy s' = dispatch_policy s
  ∧ instance_info s' = instance_info s
  ∧ sorted_instance_infos s' = sorted_instance_infos s
  ∧ num_requests s' = num_requests s.
Proof.
  unfold add_instance. simpl.
  destruct (negb _); simpl; [|done].
  by destruct (_ || _).
Qed.

Lemma remove_instance_frame r i s :
  let s' := fst (remove_instance r i s) in
  num_dispatch_instances s' = num_dispatch_instances s
  ∧ dispatch_policy s' = dispatch_policy s
  ∧ instance_info s' = instance_info s
  ∧ sorted_instance_infos s' = sorted_instance_infos s
  ∧ num_requests s' = num_requests s.
Proof.
  unfold remove_instance. simpl.
  destruct (bool_decide (i ∈ instance_id_set s)); simpl; [|done].
  destruct (dict_contains _ _); simpl;
    destruct (bool_decide (i ∈ available_dispatch_instance_set s)); simpl;
    try done;
    destruct (_ <=? _); simpl; try done;
    by destruct (next_iter _ _).
Qed.

Lemma after_num_dispatch_instances s c :
  num_dispatch_instances (after s c) = num_dispatch_instances s.
Proof.
  destruct c; simpl.
  - apply add_instance_frame.
  - apply remove_instance_frame.
  - apply dispatch_frame.
  - done.
Qed.

Lemma dict_delitem_absent {V : Type} (d : list (string * V)) (k : string) :
  k ∉ dict_keys d → dict_delitem d k = d.
Proof.
  induction d as [|[k0 v0] d IH]; simpl; intros Hk; [done|].
  apply not_elem_of_cons in Hk as [Hne Hk].
  destruct (String.eqb_spec k0 k); [congruence|]. by rewrite IH.
Qed.

(** Unfolds [remove_instance] on a registered id and splits on its tests. *)
Ltac remove_instance_cases i s :=
  unfold remove_instance; simpl;
  destruct (dict_contains (instance_num_requests s) i) eqn:?; simpl;
  destruct (bool_decide (i ∈ available_dispatch_instance_set s)) eqn:?; simpl;
  try destruct (_ <=? _) eqn:?; simpl;
  try destruct (next_iter _ _) eqn:?; simpl.

(** The counters after [remove_instance]: the entry of the removed id is
    deleted and nothing else changes, whether the call returns or raises. *)
Lemma remove_instance_counts r i s :
  i ∈ instance_id_set s →
  instance_num_requests (fst (remove_instance r i s)) =
  dict_delitem (instance_num_requests s) i.
Proof.
  intros Hin.
  assert (dict_contains (instance_num_requests s) i = false →
          dict_delitem (instance_num_requests s) i = instance_num_requests s)
    as Habs.
  { intros E. apply dict_delitem_absent. rewrite <- dict_contains_keys.
    congruence. }
  unfold remove_instance. rewrite bool_decide_eq_true_2 by done.
  remove_instance_cases i s; auto using eq_sym.
Qed.

Lemma remove_instance_all r i s :
  i ∈ instance_id_set s →
  instance_id_set (fst (remove_instance r i s)) = instance_id_set s ∖ {[i]}.
Proof.
  intros Hin. unfold remove_instance. rewrite bool_decide_eq_true_2 by done.
  remove_instance_cases i s; done.
Qed.

(** The four ways [remove_instance] treats a registered id. *)
Lemma remove_instance_not_eligible r i s :
  i ∈ instance_id_set s → i ∉ available_dispatch_instance_set s →
  available_dispatch_instance_set (fst (remove_instance r i s)) =
    available_dispatch_instance_set s
  ∧ snd (remove_instance r i s) = Return tt.
Proof.
  intros Hin Hnot. unfold remove_instance.
  rewrite bool_decide_eq_true_2 by done. simpl.
  destruct (dict_contains (instance_num_requests s) i); simpl;
    rewrite bool_decide_eq_false_2 by done; auto.
Qed.

Lemma remove_instance_no_backfill r i s :
  i ∈ instance_id_set s → i ∈ available_dispatch_instance_set s →
  Z.of_nat (size (instance_id_set s ∖ {[i]})) < num_dispatch_instances s →
  available_dispatch_instance_set (fst (remove_instance r i s)) =
    available_dispatch_instance_set s ∖ {[i]}
  ∧ snd (remove_instance r i s) = Return tt.
Proof.
  intros Hin Hel Hlt. unfold remove_instance.
  rewrite bool_decide_eq_true_2 by done. simpl.
  destruct (dict_contains (instance_num_requests s) i); simpl;
    rewrite bool_decide_eq_true_2 by done; simpl;
    rewrite (proj2 (Z.leb_gt _ _)) by done; auto.
Qed.

Lemma remove_instance_backfill r i s f :
  i ∈ instance_id_set s → i ∈ available_dispatch_instance_set s →
  num_dispatch_instances s ≤ Z.of_nat (size (instance_id_set s ∖ {[i]})) →
  next_iter r ((instance_id_set s ∖ {[i]})
               ∖ (available_dispatch_instance_set s ∖ {[i]})) = Return f →
  available_dispatch_instance_set (fst (remove_instance r i s)) =
    {[f]} ∪ (available_dispatch_instance_set s ∖ {[i]})
  ∧ snd (remove_instance r i s) = Return tt.
Proof.
  intros Hin Hel Hle Hf. unfold remove_instance.
  rewrite bool_decide_eq_true_2 by done. simpl.
  destruct (dict_contains (instance_num_requests s) i); simpl;
    rewrite bool_decide_eq_true_2 by done; simpl;
    rewrite (proj2 (Z.leb_le _ _)) by done; rewrite Hf; auto.
Qed.

Lemma remove_instance_backfill_raises r i s e :
  i ∈ instance_id_set s → i ∈ available_dispatch_instance_set s →
  num_dispatch_instances s ≤ Z.of_nat (size (instance_id_set s ∖ {[i]})) →
  next_iter r ((instance_id_set s ∖ {[i]})
               ∖ (available_dispatch_instance_set s ∖ {[i]})) = Raise e →
  available_dispatch_instance_set (fst (remove_instance r i s)) =
    available_dispatch_instance_set s ∖ {[i]}
  ∧ snd (remove_instance r i s) = Raise e.
Proof.
  intros Hin Hel Hle Hf. unfold remove_instance.
  rewrite bool_decide_eq_true_2 by done. simpl.
  destruct (dict_contains (instance_num_requests s) i); simpl;
    rewrite bool_decide_eq_true_2 by done; simpl;
    rewrite (proj2 (Z.leb_le _ _)) by done; rewrite Hf; auto.
Qed.

Lemma remove_instance_unknown r i s :
  i ∉ instance_id_set s → remove_instance r i s = (s, Raise KeyError).
Proof.
  intros Hnot. unfold remove_instance. by rewrite bool_decide_eq_false_2.
Qed.

Lemma remove_instance_eligible r i s :
  i ∈ instance_id_set s →
  let E := available_dispatch_instance_set s in
  let E' := available_dispatch_instance_set (fst (remove_instance r i s)) in
  ((i ∉ E) ∧ E' = E)
  ∨ (i ∈ E ∧ E' = E ∖ {[i]})
  ∨ (i ∈ E ∧ ∃ f, f ∈ (instance_id_set s ∖ {[i]}) ∖ (E ∖ {[i]})
                  ∧ E' = {[f]} ∪ (E ∖ {[i]})).
Proof.
  intros Hin E E'. subst E E'.
  destruct (decide (i ∈ available_dispatch_instance_set s)) as [Hel|Hnot].
  - right.
    destruct (Z_lt_le_dec (Z.of_nat (size (instance_id_set s ∖ {[i]})))
                (num_dispatch_instances s)) as [Hlt|Hle].
    + left. split; [done|]. by apply remove_instance_no_backfill.
    + destruct (next_iter r ((instance_id_set s ∖ {[i]})
                  ∖ (available_dispatch_instance_set s ∖ {[i]})))
        as [f|e] eqn:Hf.
      * right. split; [done|]. exists f. split.
        -- eauto using next_iter_Return.
        -- by apply remove_instance_backfill.
      * left. split; [done|]. by eapply remove_instance_backfill_raises.
  - left. split; [done|]. by apply remove_instance_not_eligible.
Qed.

(** ** The invariant of the scheduler *)

Lemma consistent_init name calc C s :
  DispatchScheduler_init name calc C = Return s → consistent s.
Proof.
  unfold DispatchScheduler_init. destruct (get_policy name); [|done].
  intros [= <-]. split; simpl.
  - intros k Hk. by apply not_elem_of_nil in Hk.
  - constructor.
  - intros k Hk. by apply not_elem_of_nil in Hk.
  - done.
  - intros HC. change (Z.of_nat (size (∅ : gset string)) ≤ C).
    rewrite size_empty. lia.
Qed.

Lemma consistent_add_instance i s :
  consistent s → consistent (fst (add_instance i s)).
Proof.
  intros [Hce Hnd Hdec Hreg Hcap]. unfold add_instance. simpl.
  destruct (str_contains "decode" i) eqn:Hi; simpl.
  { split; simpl; try done. set_solver. }
  destruct (_ || _) eqn:Hc; simpl.
  - split; simpl.
    + intros k. rewrite dict_keys_setitem. set_solver.
    + by apply dict_keys_NoDup_setitem.
    + intros k. rewrite dict_keys_setitem. intros [->|?]; auto.
    + set_solver.
    + intros HC.
      pose proof (size_insert_le i (available_dispatch_instance_set s)).
      apply orb_true_iff in Hc as [Hc|Hc]; [apply Z.leb_le in Hc; lia|].
      apply andb_true_iff in Hc as [_ Hc]. apply Z.ltb_lt in Hc. lia.
  - split; simpl; try done. set_solver.
Qed.

Lemma consistent_remove_instance r i s :
  consistent s → consistent (fst (remove_instance r i s)).
Proof.
  intros Hs. destruct (decide (i ∈ instance_id_set s)) as [Hin|Hnot];
    [|by rewrite remove_instance_unknown].
  destruct Hs as [Hce Hnd Hdec Hreg Hcap].
  pose proof (remove_instance_eligible r i s Hin) as HE. simpl in HE.
  pose proof (remove_instance_frame r i s) as (HC & _). simpl in HC.
  split; rewrite ?remove_instance_counts, ?remove_instance_all, ?HC by done.
  - intros k. rewrite dict_keys_delitem. intros [Hne Hk]. apply Hce in Hk.
    destruct HE as [[_ ->]|[[_ ->]|[_ (f & _ & ->)]]]; set_solver.
  - by apply dict_keys_NoDup_delitem.
  - intros k. rewrite dict_keys_delitem. intros [_ Hk]. auto.
  - destruct HE as [[? ->]|[[_ ->]|[_ (f & ? & ->)]]]; set_solver.
  - intros HCpos. specialize (Hcap HCpos).
    destruct HE as [[_ ->]|[[Hel ->]|[Hel (f & _ & ->)]]]; [done| |].
    + pose proof (size_remove _ _ Hel). lia.
    + pose proof (size_remove _ _ Hel).
      pose proof (size_insert_le f (available_dispatch_instance_set s ∖ {[i]})).
      lia.
Qed.

Lemma consistent_dispatch r s : consistent s → consistent (fst (dispatch r s)).
Proof.
  intros [Hce Hnd Hdec Hreg Hcap].
  pose proof (dispatch_frame r s) as (Hall & Hel & HC & _ & _ & _ & Hkeys).
  simpl in *. split; rewrite ?Hall, ?Hel, ?HC, ?Hkeys; done.
Qed.

Lemma consistent_after s c : consistent s → consistent (after s c).
Proof.
  destruct c; simpl.
  - apply consistent_add_instance.
  - apply consistent_remove_instance.
  - apply consistent_dispatch.
  - by intros [].
Qed.

Lemma reachable_consistent s : reachable s → consistent s.
Proof.
  induction 1; eauto using consistent_init, consistent_after.
Qed.

Lemma reachable_after_all s cs : reachable s → reachable (after_all s cs).
Proof.
  revert s. induction cs as [|c cs IH]; simpl; intros s Hs; [done|].
  apply IH. by constructor.
Qed.

Lemma after_all_app s cs1 cs2 :
  after_all s (cs1 ++ cs2)%list = after_all (after_all s cs1) cs2.
Proof. apply foldl_app. Qed.

Lemma after_all_num_dispatch_instances s cs :
  num_dispatch_instances (after_all s cs) = num_dispatch_instances s.
Proof.
  revert s. induction cs as [|c cs IH]; simpl; intros s; [done|].
  by rewrite IH, after_num_dispatch_instances.
Qed.

Lemma init_num_dispatch_instances name calc C s :
  DispatchScheduler_init name calc C = Return s → num_dispatch_instances s = C.
Proof.
  unfold DispatchScheduler_init. destruct (get_policy name); [|done].
  by intros [= <-].
Qed.

(** ** Decode-only instances *)

(** [add_instance] never makes a decode-only id eligible. *)
Lemma add_instance_decode_only i s :
  str_contains "decode" i = true →
  available_dispatch_instance_set (fst (add_instance i s)) =
    available_dispatch_instance_set s
  ∧ instance_num_requests (fst (add_instance i s)) = instance_num_requests s.
Proof. intros Hi. unfold add_instance. by rewrite Hi. Qed.

(** X25.  No history of calls gives a decode-only id a request counter. *)
Lemma decode_only_never_counted s i :
  reachable s → str_contains "decode" i = true →
  i ∉ dict_keys (instance_num_requests s).
Proof.
  intros Hs Hi Hk. apply reachable_consistent in Hs.
  apply (counts_not_decode s Hs) in Hk. congruence.
Qed.

(** X26.  Without a call of [remove_instance], no decode-only id gets
    eligible. *)
Lemma decode_only_not_eligible_without_removal name calc C s0 cs i :
  DispatchScheduler_init name calc C = Return s0 →
  forallb not_a_removal cs = true →
  str_contains "decode" i = true →
  i ∉ available_dispatch_instance_set (after_all s0 cs).
Proof.
  intros Hinit Hcs Hi.
  assert (∀ s, (∀ j, j ∈ available_dispatch_instance_set s →
                     str_contains "decode" j = false) →
               ∀ j, j ∈ available_dispatch_instance_set (after_all s cs) →
                    str_contains "decode" j = false) as Hstep.
  { clear Hinit. induction cs as [|c cs IH]; intros s Hs; [done|].
    simpl in Hcs. apply andb_true_iff in Hcs as [Hc Hcs].
    simpl. apply IH; [done|]. intros j.
    destruct c as [k| | |]; simpl; try done.
    - unfold add_instance. simpl.
      destruct (str_contains "decode" k) eqn:Hk; simpl; [apply Hs|].
      destruct (_ || _); simpl; [|apply Hs].
      intros [->%elem_of_singleton|Hj]%elem_of_union; auto.
    - pose proof (dispatch_frame r s) as (_ & -> & _). apply Hs.
    - apply Hs. }
  intros Hin. apply Hstep in Hin; [congruence|].
  unfold DispatchScheduler_init in Hinit.
  destruct (get_policy name); [|done]. injection Hinit as <-.
  intros j Hj. simpl in Hj. set_solver.
Qed.

(** ** The sorted view *)

Lemma filter_available_empty (s : DispatchScheduler) (l : list InstanceInfo) :
  available_dispatch_instance_set s = ∅ →
  filter (λ info, instance_id info ∈ available_dispatch_instance_set s) l = [].
Proof.
  intros He. induction l as [|x l IH]; [done|].
  rewrite filter_cons. rewrite IH. case_decide as Hx; [|done].
  rewrite He in Hx. set_solver.
Qed.

Lemma sort_instance_infos_empty descending s :
  available_dispatch_instance_set s = ∅ →
  sorted_instance_infos (_sort_instance_infos descending s) = Some [].
Proof.
  intros He. unfold _sort_instance_infos. simpl.
  rewrite filter_available_empty by done. by destruct descending.
Qed.

Lemma consistent_no_eligible_no_counts s :
  consistent s → available_dispatch_instance_set s = ∅ →
  instance_num_requests s = [].
Proof.
  intros Hs He. destruct (instance_num_requests s) as [|[k v] d] eqn:Ed; [done|].
  pose proof (counts_eligible s Hs k) as Hk. rewrite Ed, He in Hk.
  exfalso. apply (not_elem_of_empty (C:=gset string) k), Hk.
  simpl. apply list_elem_of_here.
Qed.

(** ** The outcome of [dispatch] *)

Lemma dispatch_outcome r s :
  snd (dispatch r s) =
  match snd (policy_dispatch r (dispatch_policy s) (instance_num_requests s)
               (dispatch_view s)) with
  | Raise e => Raise e
  | Return i =>
      if dict_contains (instance_num_requests s) i then Return i
      else Raise KeyError
  end.
Proof.
  unfold dispatch, dict_contains, dispatch_view. simpl.
  destruct (is_Load_or_Queue (dispatch_policy s)); simpl.
  - change (sorted_instance_infos
              (_sort_instance_infos false
                 (set_num_requests (num_requests s + 1) s)))
      with (sorted_instance_infos (_sort_instance_infos false s)).
    destruct (policy_dispatch _ _ _ _) as [p [i|e]]; simpl; [|done].
    by destruct (dict_get _ _).
  - destruct (policy_dispatch _ _ _ _) as [p [i|e]]; simpl; [|done].
    by destruct (dict_get _ _).
Qed.

(** The sorted view that [dispatch] leaves in the scheduler. *)
Lemma dispatch_sorted_view r s :
  sorted_instance_infos (fst (dispatch r s)) = dispatch_view s.
Proof.
  unfold dispatch, dispatch_view. simpl.
  destruct (is_Load_or_Queue (dispatch_policy s)); simpl;
    destruct (policy_dispatch _ _ _ _) as [p [i|e]]; simpl; try done;
    by destruct (dict_get _ _).
Qed.

(** ** [sorted] *)

Section Sorted.
Context {A : Type} (lt : A → A → bool).
Hypothesis lt_irrefl : ∀ x, lt x x = false.
Hypothesis lt_asym : ∀ x y, lt x y = true → lt y x = false.
Hypothesis lt_negtrans :
  ∀ x y z, lt y x = false → lt z y = false → lt z x = false.

Lemma sorted_insert_Permutation x l : sorted_insert lt x l ≡ₚ x :: l.
Proof.
  induction l as [|y l IH]; simpl; [done|].
  destruct (lt y x); [|done]. rewrite IH. apply Permutation_swap.
Qed.

Lemma py_sorted_asc_Permutation l : py_sorted_asc lt l ≡ₚ l.
Proof.
  induction l as [|x l IH]; simpl; [done|].
  by rewrite sorted_insert_Permutation, IH.
Qed.

Lemma sorted_insert_StronglySorted x l :
  StronglySorted (λ a b, lt b a = false) l →
  StronglySorted (λ a b, lt b a = false) (sorted_insert lt x l).
Proof.
  induction 1 as [|y l Hs IH Hy]; simpl.
  - repeat constructor.
  - destruct (lt y x) eqn:Hyx.
    + constructor; [done|].
      rewrite Forall_forall in Hy. apply Forall_forall. intros z Hz.
      apply list_elem_of_In, (Permutation_in _ (sorted_insert_Permutation x l))
        in Hz.
      destruct Hz as [<-|Hz]; [by apply lt_asym|].
      by apply Hy, list_elem_of_In.
    + constructor; [by constructor|].
      constructor; [done|]. apply Forall_forall. intros z Hz.
      rewrite Forall_forall in Hy. eapply lt_negtrans; [exact Hyx|].
      by apply Hy.
Qed.

(** The result is in ascending order of the keys. *)
Lemma py_sorted_asc_StronglySorted l :
  StronglySorted (λ a b, lt b a = false) (py_sorted_asc lt l).
Proof.
  induction l as [|x l IH]; simpl; [constructor|].
  by apply sorted_insert_StronglySorted.
Qed.



(** The first element of the result has a minimal key. *)
Lemma py_sorted_asc_head l :
  l ≠ [] →
  ∃ h t, py_sorted_asc lt l = h :: t ∧ h ∈ l ∧ ∀ x, x ∈ l → lt x h = false.
Proof.
  intros Hl. pose proof (py_sorted_asc_Permutation l) as Hperm.
  pose proof (py_sorted_asc_StronglySorted l) as Hs.
  destruct (py_sorted_asc lt l) as [|h t].
  { apply Permutation_nil_l in Hperm. congruence. }
  exists h, t. split; [done|]. split.
  - rewrite <- Hperm. left.
  - intros x Hx. rewrite <- Hperm in Hx.
    apply StronglySorted_inv in Hs as [_ Hh]. rewrite Forall_forall in Hh.
    apply elem_of_cons in Hx as [->|Hx]; [apply lt_irrefl | by apply Hh].
Qed.
End Sorted.

Lemma Qltb_lt (x y : Q) : Qltb x y = true ↔ (x < y)%Q.
Proof. unfold Qltb, Qlt. apply Z.ltb_lt. Qed.

Lemma Qltb_ge (x y : Q) : Qltb x y = false ↔ (y <= x)%Q.
Proof. unfold Qltb, Qle. rewrite Z.ltb_ge. done. Qed.

Lemma getattr_lt_irrefl k x : getattr_lt k x x = false.
Proof.
  destruct k; simpl; [apply Z.ltb_irrefl|]. apply Qltb_ge, Qle_refl.
Qed.

Lemma getattr_lt_asym k x y :
  getattr_lt k x y = true → getattr_lt k y x = false.
Proof.
  destruct k; simpl.
  - rewrite Z.ltb_lt, Z.ltb_ge. lia.
  - rewrite Qltb_lt, Qltb_ge. apply Qlt_le_weak.
Qed.

Lemma getattr_lt_negtrans k x y z :
  getattr_lt k y x = false → getattr_lt k z y = false →
  getattr_lt k z x = false.
Proof.
  destruct k; simpl.
  - rewrite !Z.ltb_ge. lia.
  - rewrite !Qltb_ge. apply Qle_trans.
Qed.

(** ** The Load policy *)

Lemma sort_instance_infos_view descending s :
  sorted_instance_infos (_sort_instance_infos descending s)
  = Some (py_sorted
            (getattr_lt (if is_Queue (dispatch_policy s)
                         then attr_num_waiting_requests
                         else attr_instance_load_dispatch_scale))
            descending (available_instance_infos s)).
Proof. reflexivity. Qed.


(** ** The Balanced policy *)

Lemma py_min_from_spec {A : Type} (key : A → Z) (best : A) (xs : list A) :
  (py_min_from key best xs = best ∨ py_min_from key best xs ∈ xs)
  ∧ key (py_min_from key best xs) ≤ key best
  ∧ ∀ y, y ∈ xs → key (py_min_from key best xs) ≤ key y.
Proof.
  revert best. induction xs as [|x xs IH]; intros best; simpl.
  - split; [by left|]. split; [lia|]. intros y Hy. by apply not_elem_of_nil in Hy.
  - destruct (IH (if key x <? key best then x else best)) as (Hm & Hle & Hall).
    destruct (Z.ltb_spec (key x) (key best)) as [Hlt|Hge].
    + split; [right; destruct Hm as [->|?]; [left|right]; done|].
      split; [lia|]. intros y [->|Hy]%elem_of_cons; [done|auto].
    + split; [destruct Hm as [->|?]; [by left|right; by right]|].
      split; [done|]. intros y [->|Hy]%elem_of_cons; [lia|auto].
Qed.

Lemma Balanced_dispatch_spec (d : list (string * Z)) sv :
  d ≠ [] →
  ∃ k, Balanced_dispatch d sv = Return k
       ∧ k ∈ dict_keys d
       ∧ ∀ k', k' ∈ dict_keys d → counts_get d k ≤ counts_get d k'.
Proof.
  intros Hd. unfold Balanced_dispatch, py_min.
  destruct (dict_keys d) as [|k0 ks] eqn:Hk.
  { destruct d; [done | discriminate]. }
  destruct (py_min_from_spec (counts_get d) k0 ks) as (Hm & Hle & Hall).
  eexists. split; [reflexivity|]. split.
  - destruct Hm as [->|?]; [left | by right].
  - intros k' [->|Hk']%elem_of_cons; auto.
Qed.

Lemma counts_get_setitem d k v k' :
  counts_get (dict_setitem d k v) k' =
  if String.eqb k k' then v else counts_get d k'.
Proof.
  unfold counts_get. rewrite dict_get_setitem. by destruct (String.eqb k k').
Qed.

Lemma counts_get_keys d k :
  k ∈ dict_keys d → dict_get d k = Some (counts_get d k).
Proof.
  intros Hk. unfold counts_get. destruct (dict_get d k) eqn:E; [done|].
  by apply dict_get_None_keys in E.
Qed.

(** One [dispatch] under Balanced: it returns, and counters that were all
    at some [m] or [m + 1] are so again, for [m] or for [m + 1]. *)
Lemma balanced_dispatch_step r s ptr m :
  dispatch_policy s = Balanced ptr →
  instance_num_requests s ≠ [] →
  near_level m (instance_num_requests s) →
  returned (snd (dispatch r s))
  ∧ dispatch_policy (fst (dispatch r s)) = Balanced ptr
  ∧ dict_keys (instance_num_requests (fst (dispatch r s)))
    = dict_keys (instance_num_requests s)
  ∧ ∃ m', near_level m' (instance_num_requests (fst (dispatch r s))).
Proof.
  intros Hp Hd Hm.
  destruct (Balanced_dispatch_spec (instance_num_requests s)
              (sorted_instance_infos s) Hd) as (k & Hk & Hin & Hmin).
  pose proof (counts_get_keys _ _ Hin) as Hget.
  assert (dispatch r s =
          (set_instance_num_requests
             (dict_setitem (instance_num_requests s) k
                (counts_get (instance_num_requests s) k + 1))
             (set_dispatch_policy (Balanced ptr)
                (set_num_requests (num_requests s + 1) s)),
           Return k)) as Heq.
  { unfold dispatch. cbv zeta.
    cbn [set_num_requests dispatch_policy]. rewrite Hp.
    cbn [is_Load_or_Queue set_num_requests dispatch_policy
         instance_num_requests sorted_instance_infos]. rewrite Hp.
    cbn [policy_dispatch]. rewrite Hk.
    cbn [set_dispatch_policy set_num_requests instance_num_requests].
    by rewrite Hget. }
  rewrite Heq. cbn [fst snd set_instance_num_requests instance_num_requests
                    dispatch_policy set_dispatch_policy returned].
  split; [done|]. split; [done|].
  split; [by apply dict_keys_setitem_in|].
  pose proof (Hm k Hin) as Hkm.
  destruct (decide (counts_get (instance_num_requests s) k = m)) as [Hlow|Hhigh].
  - exists m. intros k'. rewrite dict_keys_setitem_in by done. intros Hk'.
    rewrite counts_get_setitem.
    destruct (String.eqb_spec k k') as [<-|Hne]; [lia | by apply Hm].
  - exists (m + 1). intros k'. rewrite dict_keys_setitem_in by done.
    intros Hk'. rewrite counts_get_setitem.
    pose proof (Hm k' Hk'). pose proof (Hmin k' Hk').
    destruct (String.eqb_spec k k') as [<-|Hne]; lia.
Qed.

Lemma balanced_dispatch_many rs s ptr m :
  dispatch_policy s = Balanced ptr →
  instance_num_requests s ≠ [] →
  near_level m (instance_num_requests s) →
  Forall returned (snd (dispatch_many rs s))
  ∧ dict_keys (instance_num_requests (fst (dispatch_many rs s)))
    = dict_keys (instance_num_requests s)
  ∧ ∃ m', near_level m' (instance_num_requests (fst (dispatch_many rs s))).
Proof.
  revert s m. induction rs as [|r rs IH]; intros s m Hp Hd Hm; simpl.
  - split; [constructor|]. split; [done|]. by exists m.
  - destruct (balanced_dispatch_step r s ptr m Hp Hd Hm)
      as (Hret & Hp1 & Hk1 & m1 & Hm1).
    destruct (dispatch r s) as [s1 res]. simpl in *.
    assert (instance_num_requests s1 ≠ []) as Hd1.
    { intros E. rewrite E in Hk1. destruct (instance_num_requests s); done. }
    destruct (IH s1 m1 Hp1 Hd1 Hm1) as (Hrets & Hks & m2 & Hm2).
    destruct (dispatch_many rs s1) as [s2 ress]. simpl in *.
    split; [by constructor|]. split; [congruence|]. by exists m2.
Qed.

Lemma dict_get_Some_values {V : Type} (d : list (string * V)) k v :
  dict_get d k = Some v → v ∈ dict_values d.
Proof.
  induction d as [|[k0 v0] d IH]; simpl; [done|].
  destruct (String.eqb k0 k).
  - intros [= <-]. apply list_elem_of_here.
  - intros H. apply list_elem_of_further. auto.
Qed.

Lemma all_equal_near_level (d : list (string * Z)) c :
  (∀ v, v ∈ dict_values d → v = c) → near_level c d.
Proof.
  intros Hall k Hk.
  pose proof (counts_get_keys _ _ Hk) as Hget.
  apply dict_get_Some_values, Hall in Hget. lia.
Qed.

Lemma near_level_spread (d : list (string * Z)) m :
  NoDup (dict_keys d) → near_level m d → max_count d - min_count d ≤ 1.
Proof.
  intros Hnd Hm.
  assert (∀ v, v ∈ dict_values d → m ≤ v ≤ m + 1) as Hv.
  { intros v Hv. unfold dict_values in Hv.
    apply list_elem_of_fmap in Hv as ([k v'] & -> & Hin). simpl.
    pose proof (dict_get_entry d k v' Hnd Hin) as Hget.
    assert (k ∈ dict_keys d) as Hk by eauto using dict_get_Some_keys.
    specialize (Hm k Hk). unfold counts_get in Hm. by rewrite Hget in Hm. }
  unfold max_count, min_count. destruct (dict_values d) as [|v vs]; [lia|].
  assert (m ≤ foldr Z.min v vs ∧ foldr Z.max v vs ≤ m + 1); [|lia].
  assert (m ≤ v ≤ m + 1) as Hv0 by (apply Hv; left).
  assert (∀ w, w ∈ vs → m ≤ w ≤ m + 1) as Hvs by (intros w ?; apply Hv; by right).
  clear Hv. induction vs as [|w vs IH]; simpl; [lia|].
  assert (m ≤ w ≤ m + 1) by (apply Hvs; left).
  destruct IH as [? ?]; [intros; apply Hvs; by right|]. lia.
Qed.

(** ** [remove_instance] under a positive capacity *)

(** With a capacity [C > 0], removing an eligible id returns, and it
    backfills exactly when at least [C] ids stay registered. *)
Lemma remove_instance_bounded_capacity r i s :
  consistent s →
  0 < num_dispatch_instances s →
  i ∈ available_dispatch_instance_set s →
  snd (remove_instance r i s) = Return tt
  ∧ (num_dispatch_instances s ≤ Z.of_nat (size (instance_id_set s ∖ {[i]})) →
     ∃ f, f ∈ instance_id_set s ∧ f ≠ i
          ∧ (f ∉ available_dispatch_instance_set s)
          ∧ available_dispatch_instance_set (fst (remove_instance r i s))
            = {[f]} ∪ (available_dispatch_instance_set s ∖ {[i]}))
  ∧ (Z.of_nat (size (instance_id_set s ∖ {[i]})) < num_dispatch_instances s →
     available_dispatch_instance_set (fst (remove_instance r i s))
     = available_dispatch_instance_set s ∖ {[i]}).
Proof.
  intros Hs HC Hel.
  pose proof (eligible_registered s Hs) as Hreg.
  pose proof (eligible_bounded s Hs HC) as Hcap.
  assert (i ∈ instance_id_set s) as Hin by set_solver.
  pose proof (size_remove _ _ Hel) as Hsize.
  destruct (Z_lt_le_dec (Z.of_nat (size (instance_id_set s ∖ {[i]})))
              (num_dispatch_instances s)) as [Hlt|Hle].
  - destruct (remove_instance_no_backfill r i s Hin Hel Hlt) as [Heq Hret].
    split; [done|]. split; [lia | done].
  - assert ((instance_id_set s ∖ {[i]})
            ∖ (available_dispatch_instance_set s ∖ {[i]}) ≠ ∅) as Hne.
    { intros Hempty.
      assert (instance_id_set s ∖ {[i]}
              ⊆ available_dispatch_instance_set s ∖ {[i]}) as Hsub.
      { intros x Hx.
        destruct (decide (x ∈ available_dispatch_instance_set s ∖ {[i]}));
          [done|]. exfalso. set_solver. }
      apply subseteq_size in Hsub. lia. }
    destruct (next_iter_nonempty r _ Hne) as (f & Hf & Hfin).
    destruct (remove_instance_backfill r i s f Hin Hel Hle Hf) as [Heq Hret].
    split; [done|]. split; [|lia].
    intros _. exists f. repeat split; [set_solver..|done].
Qed.

(** * The properties of the specification *)

(** C4 (capacity invariant).  On a scheduler constructed with a capacity
    [C > 0], after every history of calls (of [add_instance] and
    [remove_instance], and also of the other two methods, whether a call
    returned or raised) the number of eligible ids is at most [C] and every
    eligible id is registered. *)
Theorem capacity_invariant (name : string) (calc : InstanceLoadCalculator)
    (C : Z) (s0 : DispatchScheduler) (cs : list call) :
  DispatchScheduler_init name calc C = Return s0 →
  0 < C →
  Z.of_nat (size (available_dispatch_instance_set (after_all s0 cs))) ≤ C
  ∧ available_dispatch_instance_set (after_all s0 cs)
    ⊆ instance_id_set (after_all s0 cs).
Proof.
  intros Hinit HC.
  assert (consistent (after_all s0 cs)) as Hs.
  { apply reachable_consistent, reachable_after_all.
    by eapply reachable_init. }
  split.
  - rewrite <- (init_num_dispatch_instances _ _ _ _ Hinit) in *.
    rewrite <- (after_all_num_dispatch_instances s0 cs) in *.
    by apply eligible_bounded.
  - by apply eligible_registered.
Qed.

Lemma capacity_invariant_witness :
  DispatchScheduler_init "balanced" mkInstanceLoadCalculator 2
  = Return (fresh (Balanced 0) 2)
  ∧ 0 < 2
  ∧ Z.of_nat (size (available_dispatch_instance_set
       (after_all (fresh (Balanced 0) 2) three_instances_less_one))) ≤ 2
  ∧ available_dispatch_instance_set
      (after_all (fresh (Balanced 0) 2) three_instances_less_one)
    ⊆ instance_id_set
        (after_all (fresh (Balanced 0) 2) three_instances_less_one).
Proof.
  assert (DispatchScheduler_init "balanced" mkInstanceLoadCalculator 2
          = Return (fresh (Balanced 0) 2)) as Hinit by reflexivity.
  assert (0 < 2) as HC by lia.
  split; [exact Hinit|]. split; [exact HC|].
  exact (capacity_invariant "balanced" mkInstanceLoadCalculator 2 _
           three_instances_less_one Hinit HC).
Defined.

(** C5 (empty dispatch).  In every state that a history of calls leads to
    and in which no id is eligible, [dispatch] raises instead of returning
    an id, under each of the five policies: [ValueError] from [max]/[min]
    on the empty counters (Flood, Balanced), [IndexError] from the first
    element of the empty sorted view (Load, Queue), [ZeroDivisionError]
    from the modulus by the number of counters (RoundRobin). *)
Theorem empty_dispatch_raises (r : nat) (s : DispatchScheduler) :
  reachable s →
  available_dispatch_instance_set s = ∅ →
  snd (dispatch r s) =
  Raise match dispatch_policy s with
        | Flood _ | Balanced _ => ValueError
        | Load _ | Queue _ => IndexError
        | RoundRobin _ _ => ZeroDivisionError
        end.
Proof.
  intros Hs He. apply reachable_consistent in Hs.
  pose proof (consistent_no_eligible_no_counts s Hs He) as Hd.
  rewrite dispatch_outcome. unfold dispatch_view.
  destruct (dispatch_policy s) eqn:Hp; cbn [is_Load_or_Queue];
    rewrite ?sort_instance_infos_empty by done; rewrite Hd; done.
Qed.

Lemma empty_dispatch_raises_witness :
  reachable (fresh (RoundRobin 0 (-1)) 0)
  ∧ available_dispatch_instance_set (fresh (RoundRobin 0 (-1)) 0) = ∅
  ∧ snd (dispatch 0 (fresh (RoundRobin 0 (-1)) 0)) = Raise ZeroDivisionError.
Proof.
  assert (reachable (fresh (RoundRobin 0 (-1)) 0)) as Hs.
  { apply (reachable_init "rr" mkInstanceLoadCalculator 0). reflexivity. }
  assert (available_dispatch_instance_set (fresh (RoundRobin 0 (-1)) 0) = ∅)
    as He by reflexivity.
  split; [exact Hs|]. split; [exact He|].
  exact (empty_dispatch_raises 0 (fresh (RoundRobin 0 (-1)) 0) Hs He).
Defined.

(** C6 (unknown-id removal).  [remove_instance] on an id that is not
    registered raises [KeyError] (the spec's InstanceNotFoundError) and
    leaves the whole scheduler as it was. *)
Theorem remove_unknown_instance (r : nat) (i : string) (s : DispatchScheduler) :
  i ∉ instance_id_set s →
  remove_instance r i s = (s, Raise KeyError).
Proof. apply remove_instance_unknown. Qed.

Lemma remove_unknown_instance_witness :
  ("d" ∉ instance_id_set (after_all (fresh (Flood 0) 0) three_instances))
  ∧ remove_instance 0 "d" (after_all (fresh (Flood 0) 0) three_instances)
    = (after_all (fresh (Flood 0) 0) three_instances, Raise KeyError).
Proof.
  assert ("d" ∉ instance_id_set (after_all (fresh (Flood 0) 0) three_instances))
    as Hnot.
  { vm_compute. intros H. discriminate H. }
  split; [exact Hnot|].
  exact (remove_unknown_instance 0 "d" _ Hnot).
Defined.

(** C2 (backfill creates no counter).  Whenever a call of [remove_instance]
    on a state that a history of calls leads to makes an id [f] eligible that
    was not eligible before (the backfill), the call returns, [f] is
    eligible afterwards but has no request counter, and the counters are
    those of before with the entry of the removed id deleted. *)
Theorem backfill_creates_no_counter (r : nat) (i f : string)
    (s : DispatchScheduler) :
  reachable s →
  f ∉ available_dispatch_instance_set s →
  f ∈ available_dispatch_instance_set (fst (remove_instance r i s)) →
  snd (remove_instance r i s) = Return tt
  ∧ f ∈ available_dispatch_instance_set (fst (remove_instance r i s))
  ∧ (f ∉ dict_keys (instance_num_requests (fst (remove_instance r i s))))
  ∧ instance_num_requests (fst (remove_instance r i s)) =
      dict_delitem (instance_num_requests s) i
  ∧ ∀ k, k ≠ i →
         dict_get (instance_num_requests (fst (remove_instance r i s))) k =
         dict_get (instance_num_requests s) k.
Proof.
  intros Hs Hbefore Hafter. apply reachable_consistent in Hs.
  destruct (decide (i ∈ instance_id_set s)) as [Hin|Hnot];
    [|rewrite remove_instance_unknown in Hafter by done; contradiction].
  assert (snd (remove_instance r i s) = Return tt) as Hret.
  { destruct (decide (i ∈ available_dispatch_instance_set s)) as [Hel|Hnel];
      [|by apply remove_instance_not_eligible].
    destruct (Z_lt_le_dec (Z.of_nat (size (instance_id_set s ∖ {[i]})))
                (num_dispatch_instances s)) as [Hlt|Hle];
      [by apply remove_instance_no_backfill|].
    destruct (next_iter r ((instance_id_set s ∖ {[i]})
                ∖ (available_dispatch_instance_set s ∖ {[i]})))
      as [g|e] eqn:Hg; [by eapply remove_instance_backfill|].
    exfalso.
    destruct (remove_instance_backfill_raises r i s e Hin Hel Hle Hg)
      as [Heq _].
    rewrite Heq in Hafter. set_solver. }
  rewrite remove_instance_counts by done.
  repeat split; try done.
  - rewrite dict_keys_delitem. intros [_ Hk].
    by apply (counts_eligible s Hs) in Hk.
  - intros k Hne. rewrite dict_get_delitem.
    destruct (String.eqb_spec i k); congruence.
Qed.

Lemma backfill_creates_no_counter_witness :
  reachable (after_all (fresh (Balanced 0) 2) three_instances)
  ∧ ("c" ∉ available_dispatch_instance_set
             (after_all (fresh (Balanced 0) 2) three_instances))
  ∧ "c" ∈ available_dispatch_instance_set
            (fst (remove_instance 0 "a"
                    (after_all (fresh (Balanced 0) 2) three_instances)))
  ∧ ("c" ∉ dict_keys (instance_num_requests
             (fst (remove_instance 0 "a"
                     (after_all (fresh (Balanced 0) 2) three_instances)))))
  ∧ instance_num_requests
      (fst (remove_instance 0 "a"
              (after_all (fresh (Balanced 0) 2) three_instances)))
    = [("b", 0)].
Proof.
  assert (reachable (after_all (fresh (Balanced 0) 2) three_instances)) as Hs.
  { apply reachable_after_all.
    apply (reachable_init "balanced" mkInstanceLoadCalculator 2). reflexivity. }
  assert ("c" ∉ available_dispatch_instance_set
                  (after_all (fresh (Balanced 0) 2) three_instances))
    as Hbefore.
  { vm_compute. intros H. discriminate H. }
  assert ("c" ∈ available_dispatch_instance_set
                  (fst (remove_instance 0 "a"
                          (after_all (fresh (Balanced 0) 2) three_instances))))
    as Hafter.
  { vm_compute. reflexivity. }
  split; [exact Hs|]. split; [exact Hbefore|]. split; [exact Hafter|].
  destruct (backfill_creates_no_counter 0 "a" "c" _ Hs Hbefore Hafter)
    as (_ & _ & Hnot & Hcounts & _).
  split; [exact Hnot|]. rewrite Hcounts. reflexivity.
Defined.

(** C9 (round-robin determinism).  On a fresh round-robin scheduler with
    unbounded capacity, after [add_instance] of "b", "a", "c" in that order,
    four calls of [dispatch] return "a", "b", "c", "a". *)
Theorem round_robin_determinism (r1 r2 r3 r4 : nat) :
  ∃ s0, DispatchScheduler_init "rr" mkInstanceLoadCalculator 0 = Return s0
  ∧ snd (dispatch_many [r1; r2; r3; r4]
           (after_all s0 [call_add_instance "b"; call_add_instance "a";
                          call_add_instance "c"]))
    = [Return "a"; Return "b"; Return "c"; Return "a"].
Proof.
  eexists. split; [reflexivity|]. vm_compute. reflexivity.
Qed.

(** C10 (negated thresholds).  The constructor of [GlobalSchedulerConfig]
    stores the three thresholds negated and every other argument
    unchanged. *)
Theorem config_thresholds_negated
    (initial_instances : Z) (load_metric dispatch_policy : string)
    (num_dispatch_instances : Z) (pair_migration_policy : string)
    (migrate_out_threshold : Q) (enable_defrag : bool)
    (scaling_policy : string) (scale_up_threshold scale_down_threshold : Q)
    (enable_pd_disagg : bool) (migration_backend : string) :
  InternalConfig.GlobalSchedulerConfig_init initial_instances load_metric
    dispatch_policy num_dispatch_instances pair_migration_policy
    migrate_out_threshold enable_defrag scaling_policy scale_up_threshold
    scale_down_threshold enable_pd_disagg migration_backend
  = InternalConfig.mkGlobalSchedulerConfig initial_instances load_metric
      dispatch_policy pair_migration_policy (- migrate_out_threshold)%Q
      enable_defrag scaling_policy (- scale_up_threshold)%Q
      (- scale_down_threshold)%Q enable_pd_disagg num_dispatch_instances
      migration_backend.
Proof.
  assert (∀ x : Q, (x * (-1))%Q = (- x)%Q) as Hneg.
  { intros [n d]. unfold Qmult, Qopp. simpl. f_equal; [lia|].
    apply Pos.mul_1_r. }
  unfold InternalConfig.GlobalSchedulerConfig_init. by rewrite !Hneg.
Qed.

(** ** Where the backfill of [remove_instance] departs from the specification *)

(** C1 (decode exclusion).  The backfill of [remove_instance] takes any
    registered id that is not eligible, decode-only ids included: with
    capacity 1, after [add_instance] of "a" and of "decode_0", removing "a"
    makes the decode-only id "decode_0" eligible, whichever element the set
    iterator yields.  (It still gets no request counter, see
    [decode_only_never_counted].) *)
Theorem backfill_admits_decode_only (r : nat) :
  ∃ s0, DispatchScheduler_init "load" mkInstanceLoadCalculator 1 = Return s0
  ∧ str_contains "decode" "decode_0" = true
  ∧ snd (remove_instance r "a"
           (after_all s0 [call_add_instance "a"; call_add_instance "decode_0"]))
    = Return tt
  ∧ "decode_0" ∈ available_dispatch_instance_set
      (after_all s0 [call_add_instance "a"; call_add_instance "decode_0";
                     call_remove_instance "a" r]).
Proof.
  eexists. split; [reflexivity|]. split; [reflexivity|].
  set (s := after_all _ [_; _]).
  destruct (remove_instance_backfill r "a" s "decode_0") as [Heq Hret].
  - vm_compute. reflexivity.
  - vm_compute. reflexivity.
  - vm_compute. discriminate.
  - replace ((instance_id_set s ∖ {["a"]})
             ∖ (available_dispatch_instance_set s ∖ {["a"]}))
      with ({["decode_0"]} : gset string) by (vm_compute; reflexivity).
    apply next_iter_singleton.
  - split; [done|].
    change (after_all _ [_; _; _]) with (fst (remove_instance r "a" s)).
    rewrite Heq. set_solver.
Qed.

(** C3 (backfill and capacity).  [remove_instance] attempts the backfill
    whenever [num_instances >= num_dispatch_instances], also for a capacity
    [C <= 0] that [add_instance] treats as unbounded.  With capacity 0:
    removing the only instance raises [StopIteration] (there is nothing to
    backfill with), and removing "a" next to a decode-only instance backfills
    the decode-only instance. *)
Theorem unbounded_capacity_backfills (r : nat) :
  ∃ s0, DispatchScheduler_init "load" mkInstanceLoadCalculator 0 = Return s0
  ∧ snd (remove_instance r "a" (after_all s0 [call_add_instance "a"]))
    = Raise StopIteration
  ∧ snd (remove_instance r "a"
           (after_all s0 [call_add_instance "a"; call_add_instance "decode_0"]))
    = Return tt
  ∧ available_dispatch_instance_set
      (fst (remove_instance r "a"
              (after_all s0 [call_add_instance "a";
                             call_add_instance "decode_0"])))
    = {["decode_0"]}.
Proof.
  eexists. split; [reflexivity|]. split.
  - set (s := after_all _ [_]).
    eapply (remove_instance_backfill_raises r "a" s).
    + vm_compute. reflexivity.
    + vm_compute. reflexivity.
    + vm_compute. discriminate.
    + replace ((instance_id_set s ∖ {["a"]})
               ∖ (available_dispatch_instance_set s ∖ {["a"]}))
        with (∅ : gset string) by (vm_compute; reflexivity).
      apply next_iter_empty.
  - set (s := after_all _ [_; _]).
    destruct (remove_instance_backfill r "a" s "decode_0") as [Heq Hret].
    + vm_compute. reflexivity.
    + vm_compute. reflexivity.
    + vm_compute. discriminate.
    + replace ((instance_id_set s ∖ {["a"]})
               ∖ (available_dispatch_instance_set s ∖ {["a"]}))
        with ({["decode_0"]} : gset string) by (vm_compute; reflexivity).
      apply next_iter_singleton.
    + split; [done|]. rewrite Heq. vm_compute. reflexivity.
Qed.

(** C8 (load selection).  A backfilled instance is eligible but has no
    request counter, so when the Load policy selects it the increment of the
    counter raises [KeyError]: with capacity 1, after [add_instance] of "a"
    and "b", [remove_instance] of "a" (which backfills "b") and a snapshot
    that holds "b" alone, the only eligible id "b" has the minimal load and
    [dispatch] raises instead of returning it. *)
Theorem load_dispatch_of_backfilled_raises (r r' : nat) (load : Q) (depth : Z) :
  ∃ s0, DispatchScheduler_init "load" mkInstanceLoadCalculator 1 = Return s0
  ∧ let s := after_all s0
               [call_add_instance "a"; call_add_instance "b";
                call_remove_instance "a" r;
                call_update_instance_infos
                  [("b", mkInstanceInfo "b" load depth)]] in
    available_dispatch_instance_set s = {["b"]}
    ∧ dict_values (instance_info s) = [mkInstanceInfo "b" load depth]
    ∧ sorted_instance_infos (fst (dispatch r' s))
      = Some [mkInstanceInfo "b" load depth]
    ∧ snd (dispatch r' s) = Raise KeyError.
Proof.
  exists (fresh (Load 0) 1). split; [reflexivity|].
  change [call_add_instance "a"; call_add_instance "b";
          call_remove_instance "a" r;
          call_update_instance_infos [("b", mkInstanceInfo "b" load depth)]]
    with ([call_add_instance "a"; call_add_instance "b"]
          ++ [call_remove_instance "a" r;
              call_update_instance_infos
                [("b", mkInstanceInfo "b" load depth)]])%list.
  rewrite after_all_app.
  set (s1 := after_all (fresh (Load 0) 1)
               [call_add_instance "a"; call_add_instance "b"]).
  assert ("a" ∈ instance_id_set s1) as Hin by (vm_compute; reflexivity).
  assert ("a" ∈ available_dispatch_instance_set s1) as Hel
    by (vm_compute; reflexivity).
  assert (num_dispatch_instances s1
          ≤ Z.of_nat (size (instance_id_set s1 ∖ {["a"]}))) as Hle
    by (vm_compute; discriminate).
  assert ((instance_id_set s1 ∖ {["a"]})
          ∖ (available_dispatch_instance_set s1 ∖ {["a"]}) = {["b"]}) as Hfree
    by (vm_compute; reflexivity).
  assert (available_dispatch_instance_set s1 ∖ {["a"]} = ∅) as Hrest
    by (vm_compute; reflexivity).
  assert (dict_delitem (instance_num_requests s1) "a" = []) as Hdel
    by (vm_compute; reflexivity).
  assert (dispatch_policy s1 = Load 0) as Hpol by (vm_compute; reflexivity).
  clearbody s1.
  destruct (remove_instance_backfill r "a" s1 "b" Hin Hel Hle) as [Heq _].
  { rewrite Hfree. apply next_iter_singleton. }
  rewrite Hrest in Heq.
  pose proof (remove_instance_counts r "a" s1 Hin) as Hc. rewrite Hdel in Hc.
  pose proof (remove_instance_frame r "a" s1) as (_ & Hp & _). simpl in Hp.
  rewrite Hpol in Hp.
  unfold after_all. cbn [foldl after update_instance_infos fst].
  set (s := set_instance_info _ _).
  assert (available_dispatch_instance_set s = {["b"]}) as Hel'.
  { subst s. cbn [set_instance_info available_dispatch_instance_set].
    rewrite Heq. set_solver. }
  assert (instance_num_requests s = []) as Hc' by exact Hc.
  assert (dispatch_policy s = Load 0) as Hp' by exact Hp.
  assert (instance_info s = [("b", mkInstanceInfo "b" load depth)]) as Hi
    by reflexivity.
  clearbody s.
  assert (sorted_instance_infos (_sort_instance_infos false s)
          = Some [mkInstanceInfo "b" load depth]) as Hv.
  { unfold _sort_instance_infos. rewrite Hi, Hel', Hp'.
    cbn [dict_values map snd is_Queue].
    rewrite filter_cons, decide_True by set_solver. done. }
  split; [done|]. split; [by rewrite Hi|]. split.
  - rewrite dispatch_sorted_view. unfold dispatch_view.
    rewrite Hp'. cbn [is_Load_or_Queue]. exact Hv.
  - rewrite dispatch_outcome. unfold dispatch_view.
    rewrite Hp'. cbn [is_Load_or_Queue]. rewrite Hv, Hc'. done.
Qed.

(** C7 (balanced fairness).  Under the Balanced policy, from a state whose
    request counters are a non-empty dictionary with all values equal, any
    number of [dispatch] calls in a row all return, keep the keys of the
    counters, and leave the largest counter at most one above the
    smallest. *)
Theorem balanced_fairness (s : DispatchScheduler) (ptr c : Z) (rs : list nat) :
  dispatch_policy s = Balanced ptr →
  NoDup (dict_keys (instance_num_requests s)) →
  instance_num_requests s ≠ [] →
  (∀ v, v ∈ dict_values (instance_num_requests s) → v = c) →
  Forall returned (snd (dispatch_many rs s))
  ∧ dict_keys (instance_num_requests (fst (dispatch_many rs s)))
    = dict_keys (instance_num_requests s)
  ∧ max_count (instance_num_requests (fst (dispatch_many rs s)))
    - min_count (instance_num_requests (fst (dispatch_many rs s))) ≤ 1.
Proof.
  intros Hp Hnd Hd Hall.
  destruct (balanced_dispatch_many rs s ptr c Hp Hd
              (all_equal_near_level _ _ Hall)) as (Hret & Hk & m & Hm).
  split; [done|]. split; [done|].
  apply (near_level_spread _ m); [by rewrite Hk | done].
Qed.

Lemma balanced_fairness_witness :
  dispatch_policy (after_all (fresh (Balanced 0) 0) three_instances)
  = Balanced 0
  ∧ NoDup (dict_keys (instance_num_requests
             (after_all (fresh (Balanced 0) 0) three_instances)))
  ∧ instance_num_requests (after_all (fresh (Balanced 0) 0) three_instances)
    ≠ []
  ∧ (∀ v, v ∈ dict_values (instance_num_requests
                 (after_all (fresh (Balanced 0) 0) three_instances)) → v = 0)
  ∧ max_count (instance_num_requests
       (fst (dispatch_many [0; 0; 0; 0; 0]%nat
               (after_all (fresh (Balanced 0) 0) three_instances))))
    - min_count (instance_num_requests
        (fst (dispatch_many [0; 0; 0; 0; 0]%nat
                (after_all (fresh (Balanced 0) 0) three_instances)))) ≤ 1.
Proof.
  assert (dispatch_policy (after_all (fresh (Balanced 0) 0) three_instances)
          = Balanced 0) as Hp by reflexivity.
  assert (NoDup (dict_keys (instance_num_requests
            (after_all (fresh (Balanced 0) 0) three_instances)))) as Hnd.
  { vm_compute. repeat constructor; set_solver. }
  assert (instance_num_requests
            (after_all (fresh (Balanced 0) 0) three_instances) ≠ []) as Hd.
  { vm_compute. intros H. discriminate H. }
  assert (∀ v, v ∈ dict_values (instance_num_requests
                 (after_all (fresh (Balanced 0) 0) three_instances)) → v = 0)
    as Hall.
  { intros v Hv. vm_compute in Hv. set_solver. }
  split; [exact Hp|]. split; [exact Hnd|]. split; [exact Hd|].
  split; [exact Hall|].
  exact (proj2 (proj2 (balanced_fairness _ 0 0 [0; 0; 0; 0; 0]%nat
                         Hp Hnd Hd Hall))).
Defined.

(** * Further properties of the code *)

(** ** What [dispatch] does to the scheduler *)

Lemma dispatch_counts r s :
  instance_num_requests (fst (dispatch r s)) =
  match snd (dispatch r s) with
  | Return i =>
      dict_setitem (instance_num_requests s) i
        (counts_get (instance_num_requests s) i + 1)
  | Raise _ => instance_num_requests s
  end.
Proof.
  unfold dispatch, counts_get. simpl.
  destruct (is_Load_or_Queue (dispatch_policy s)); simpl;
    destruct (policy_dispatch _ _ _ _) as [p [i|e]]; simpl; try done;
    destruct (dict_get (instance_num_requests s) i) as [n|] eqn:E; simpl;
    rewrite ?E; done.
Qed.

Lemma dispatch_Return_counted r s i :
  snd (dispatch r s) = Return i → i ∈ dict_keys (instance_num_requests s).
Proof.
  rewrite dispatch_outcome.
  destruct (snd (policy_dispatch _ _ _ _)) as [j|e]; [|done].
  destruct (dict_contains (instance_num_requests s) j) eqn:E; [|done].
  intros [= <-]. by apply dict_contains_keys.
Qed.

(** X1.  A [dispatch] that returns the id [i] adds one to the counter of [i]
    and changes no other counter and no key; a [dispatch] that raises leaves
    the counters as they were. *)
Theorem dispatch_counts_effect (r : nat) (s : DispatchScheduler) :
  match snd (dispatch r s) with
  | Return i =>
      dict_keys (instance_num_requests (fst (dispatch r s)))
      = dict_keys (instance_num_requests s)
      ∧ ∀ k, counts_get (instance_num_requests (fst (dispatch r s))) k
             = if String.eqb i k
               then counts_get (instance_num_requests s) k + 1
               else counts_get (instance_num_requests s) k
  | Raise _ => instance_num_requests (fst (dispatch r s)) = instance_num_requests s
  end.
Proof.
  pose proof (dispatch_counts r s) as Hc.
  pose proof (dispatch_Return_counted r s) as Hk.
  destruct (snd (dispatch r s)) as [i|e]; [|done].
  rewrite Hc. split.
  - apply dict_keys_setitem_in. by apply Hk.
  - intros k. rewrite counts_get_setitem.
    destruct (String.eqb_spec i k) as [->|]; done.
Qed.

(** X2.  [dispatch] changes no membership: the registered ids, the eligible
    ids, the capacity and the snapshot stay as they are, and [num_requests]
    grows by one whether the call returns or raises. *)
Theorem dispatch_keeps_membership (r : nat) (s : DispatchScheduler) :
  instance_id_set (fst (dispatch r s)) = instance_id_set s
  ∧ available_dispatch_instance_set (fst (dispatch r s))
    = available_dispatch_instance_set s
  ∧ num_instances (fst (dispatch r s)) = num_instances s
  ∧ num_dispatch_instances (fst (dispatch r s)) = num_dispatch_instances s
  ∧ instance_info (fst (dispatch r s)) = instance_info s
  ∧ num_requests (fst (dispatch r s)) = num_requests s + 1.
Proof.
  pose proof (dispatch_frame r s) as (H1 & H2 & H3 & H4 & H5 & H6 & _).
  by repeat split.
Qed.

(** X3.  After any history of calls, an id that [dispatch] returns is
    registered, eligible, has a request counter and is not decode-only. *)
Theorem dispatch_returns_eligible (r : nat) (s : DispatchScheduler)
    (i : string) :
  reachable s →
  snd (dispatch r s) = Return i →
  i ∈ instance_id_set s
  ∧ i ∈ available_dispatch_instance_set s
  ∧ i ∈ dict_keys (instance_num_requests s)
  ∧ str_contains "decode" i = false.
Proof.
  intros Hs Hret. apply reachable_consistent in Hs.
  apply dispatch_Return_counted in Hret.
  pose proof (counts_eligible s Hs i Hret) as Hel.
  pose proof (eligible_registered s Hs i Hel) as Hreg.
  pose proof (counts_not_decode s Hs i Hret) as Hdec.
  done.
Qed.

Lemma dispatch_returns_eligible_witness :
  reachable (after_all (fresh (Balanced 0) 0) three_instances)
  ∧ snd (dispatch 0 (after_all (fresh (Balanced 0) 0) three_instances))
    = Return "a"
  ∧ "a" ∈ instance_id_set (after_all (fresh (Balanced 0) 0) three_instances)
  ∧ "a" ∈ available_dispatch_instance_set
            (after_all (fresh (Balanced 0) 0) three_instances)
  ∧ "a" ∈ dict_keys (instance_num_requests
                       (after_all (fresh (Balanced 0) 0) three_instances))
  ∧ str_contains "decode" "a" = false.
Proof.
  assert (reachable (after_all (fresh (Balanced 0) 0) three_instances)) as Hs.
  { apply reachable_after_all.
    apply (reachable_init "balanced" mkInstanceLoadCalculator 0). reflexivity. }
  assert (snd (dispatch 0 (after_all (fresh (Balanced 0) 0) three_instances))
          = Return "a") as Hret by (vm_compute; reflexivity).
  split; [exact Hs|]. split; [exact Hret|].
  exact (dispatch_returns_eligible 0 _ "a" Hs Hret).
Defined.

(** ** Invariants of the counters *)

Lemma total_count_setitem (d : list (string * Z)) k w :
  total_count (dict_setitem d k w) = total_count d - counts_get d k + w.
Proof.
  unfold total_count, counts_get.
  induction d as [|[k0 v0] d IH]; simpl; [lia|].
  destruct (String.eqb k0 k); simpl; [lia|]. rewrite IH. lia.
Qed.

Lemma dict_values_setitem_Forall {V : Type} (P : V → Prop)
    (d : list (string * V)) k w :
  Forall P (dict_values d) → P w → Forall P (dict_values (dict_setitem d k w)).
Proof.
  intros Hd Hw. induction d as [|[k0 v0] d IH]; simpl.
  - by repeat constructor.
  - simpl in Hd. apply Forall_cons in Hd as [Hv0 Hd].
    destruct (String.eqb k0 k); simpl; constructor; auto.
Qed.

Lemma dict_delitem_nonneg (d : list (string * Z)) k :
  Forall (λ v, 0 ≤ v) (dict_values d) →
  Forall (λ v, 0 ≤ v) (dict_values (dict_delitem d k))
  ∧ total_count (dict_delitem d k) ≤ total_count d.
Proof.
  unfold total_count. induction d as [|[k0 v0] d IH]; simpl; intros Hd.
  - split; [constructor | lia].
  - apply Forall_cons in Hd as [Hv0 Hd]. destruct (IH Hd) as [IH1 IH2].
    destruct (String.eqb k0 k); simpl.
    + split; [done | lia].
    + split; [by constructor | lia].
Qed.

Lemma counts_get_nonneg (d : list (string * Z)) k :
  Forall (λ v, 0 ≤ v) (dict_values d) → 0 ≤ counts_get d k.
Proof.
  intros Hd. unfold counts_get. destruct (dict_get d k) as [v|] eqn:E; [|done].
  apply dict_get_Some_values in E. rewrite Forall_forall in Hd. by apply Hd.
Qed.

Lemma add_instance_counts i s :
  instance_num_requests (fst (add_instance i s)) = instance_num_requests s
  ∨ instance_num_requests (fst (add_instance i s))
    = dict_setitem (instance_num_requests s) i 0.
Proof.
  unfold add_instance. simpl. destruct (negb _); simpl; [|by left].
  destruct (_ || _); simpl; [by right | by left].
Qed.

Lemma tallied_after s c :
  Forall (λ v, 0 ≤ v) (dict_values (instance_num_requests s))
  ∧ total_count (instance_num_requests s) ≤ num_requests s →
  Forall (λ v, 0 ≤ v) (dict_values (instance_num_requests (after s c)))
  ∧ total_count (instance_num_requests (after s c)) ≤ num_requests (after s c).
Proof.
  intros [Hpos Hsum]. destruct c as [i|i r|r|snap]; simpl.
  - pose proof (add_instance_frame i s) as (_ & _ & _ & _ & _ & ->).
    destruct (add_instance_counts i s) as [->| ->]; [done|].
    split; [by apply dict_values_setitem_Forall|].
    rewrite total_count_setitem.
    pose proof (counts_get_nonneg _ i Hpos). lia.
  - destruct (decide (i ∈ instance_id_set s)) as [Hin|Hnot];
      [|by rewrite remove_instance_unknown].
    pose proof (remove_instance_frame r i s) as (_ & _ & _ & _ & ->).
    rewrite remove_instance_counts by done.
    destruct (dict_delitem_nonneg _ i Hpos). split; [done | lia].
  - pose proof (dispatch_frame r s) as (_ & _ & _ & _ & _ & -> & _).
    rewrite dispatch_counts. destruct (snd (dispatch r s)) as [i|e].
    + pose proof (counts_get_nonneg _ i Hpos).
      split; [apply dict_values_setitem_Forall; [done | lia]|].
      rewrite total_count_setitem. lia.
    + split; [done | lia].
  - done.
Qed.

(** X4.  After any history of calls no request counter is negative and the
    counters add up to at most the number of [dispatch] calls made. *)
Theorem counters_bounded_by_requests (s : DispatchScheduler) :
  reachable s →
  Forall (λ v, 0 ≤ v) (dict_values (instance_num_requests s))
  ∧ total_count (instance_num_requests s) ≤ num_requests s.
Proof.
  induction 1 as [name calc C s Hinit|s c Hs IH]; [|by apply tallied_after].
  unfold DispatchScheduler_init in Hinit.
  destruct (get_policy name); [|done]. injection Hinit as <-.
  split; [constructor | done].
Qed.

Lemma counters_bounded_by_requests_witness :
  reachable (after_all (fresh (RoundRobin 0 (-1)) 0)
               (three_instances_less_one ++ [call_dispatch 0; call_dispatch 0]))
  ∧ Forall (λ v, 0 ≤ v)
      (dict_values (instance_num_requests
         (after_all (fresh (RoundRobin 0 (-1)) 0)
            (three_instances_less_one ++ [call_dispatch 0; call_dispatch 0]))))
  ∧ total_count (instance_num_requests
      (after_all (fresh (RoundRobin 0 (-1)) 0)
         (three_instances_less_one ++ [call_dispatch 0; call_dispatch 0])))
    ≤ num_requests
        (after_all (fresh (RoundRobin 0 (-1)) 0)
           (three_instances_less_one ++ [call_dispatch 0; call_dispatch 0])).
Proof.
  assert (reachable (after_all (fresh (RoundRobin 0 (-1)) 0)
            (three_instances_less_one ++ [call_dispatch 0; call_dispatch 0])))
    as Hs.
  { apply reachable_after_all.
    apply (reachable_init "rr" mkInstanceLoadCalculator 0). reflexivity. }
  split; [exact Hs|].
  exact (counters_bounded_by_requests _ Hs).
Defined.

(** X5.  After any history of calls the request counters form a dictionary
    (no key twice) whose keys are eligible, registered ids. *)
Theorem counters_belong_to_eligible (s : DispatchScheduler) :
  reachable s →
  NoDup (dict_keys (instance_num_requests s))
  ∧ ∀ k, k ∈ dict_keys (instance_num_requests s) →
         k ∈ available_dispatch_instance_set s ∧ k ∈ instance_id_set s.
Proof.
  intros Hs. apply reachable_consistent in Hs.
  split; [by apply counts_NoDup|].
  intros k Hk. pose proof (counts_eligible s Hs k Hk) as Hel.
  split; [done|]. by apply (eligible_registered s Hs).
Qed.

Lemma counters_belong_to_eligible_witness :
  reachable (after_all (fresh (Flood 0) 2) three_instances_less_one)
  ∧ NoDup (dict_keys (instance_num_requests
             (after_all (fresh (Flood 0) 2) three_instances_less_one)))
  ∧ ∀ k, k ∈ dict_keys (instance_num_requests
                 (after_all (fresh (Flood 0) 2) three_instances_less_one)) →
         k ∈ available_dispatch_instance_set
               (after_all (fresh (Flood 0) 2) three_instances_less_one)
         ∧ k ∈ instance_id_set
                 (after_all (fresh (Flood 0) 2) three_instances_less_one).
Proof.
  assert (reachable (after_all (fresh (Flood 0) 2) three_instances_less_one))
    as Hs.
  { apply reachable_after_all.
    apply (reachable_init "flood" mkInstanceLoadCalculator 2). reflexivity. }
  split; [exact Hs|].
  exact (counters_belong_to_eligible _ Hs).
Defined.

Lemma num_instances_after s c :
  num_instances s = Z.of_nat (size (instance_id_set s)) →
  num_instances (after s c) = Z.of_nat (size (instance_id_set (after s c))).
Proof.
  intros Hn. destruct c as [i|i r|r|snap]; simpl.
  - unfold add_instance. simpl. destruct (negb _); simpl; [|done].
    by destruct (_ || _).
  - destruct (decide (i ∈ instance_id_set s)) as [Hin|Hnot];
      [|by rewrite remove_instance_unknown].
    unfold remove_instance. rewrite bool_decide_eq_true_2 by done.
    remove_instance_cases i s; done.
  - by pose proof (dispatch_frame r s) as (-> & _ & _ & -> & _).
  - done.
Qed.

Lemma reachable_num_instances s :
  reachable s → num_instances s = Z.of_nat (size (instance_id_set s)).
Proof.
  induction 1 as [name calc C s Hinit|s c Hs IH];
    [|by apply num_instances_after].
  unfold DispatchScheduler_init in Hinit.
  destruct (get_policy name); [|done]. by injection Hinit as <-.
Qed.

(** X6.  After any history of calls the attribute [num_instances] is the
    number of registered ids. *)
Theorem num_instances_is_size (s : DispatchScheduler) :
  reachable s → num_instances s = Z.of_nat (size (instance_id_set s)).
Proof. apply reachable_num_instances. Qed.

Lemma num_instances_is_size_witness :
  reachable (after_all (fresh (Queue 0) 1) three_instances_less_one)
  ∧ num_instances (after_all (fresh (Queue 0) 1) three_instances_less_one)
    = Z.of_nat (size (instance_id_set
        (after_all (fresh (Queue 0) 1) three_instances_less_one))).
Proof.
  assert (reachable (after_all (fresh (Queue 0) 1) three_instances_less_one))
    as Hs.
  { apply reachable_after_all.
    apply (reachable_init "queue" mkInstanceLoadCalculator 1). reflexivity. }
  split; [exact Hs|].
  exact (num_instances_is_size _ Hs).
Defined.

(** ** The counting policies *)

Lemma dispatch_policy_after r s :
  dispatch_policy (fst (dispatch r s))
  = fst (policy_dispatch r (dispatch_policy s) (instance_num_requests s)
           (dispatch_view s)).
Proof.
  unfold dispatch, dispatch_view. simpl.
  destruct (is_Load_or_Queue (dispatch_policy s)); simpl.
  - change (sorted_instance_infos
              (_sort_instance_infos false
                 (set_num_requests (num_requests s + 1) s)))
      with (sorted_instance_infos (_sort_instance_infos false s)).
    destruct (policy_dispatch _ _ _ _) as [p [i|e]]; simpl; [|done].
    by destruct (dict_get _ _).
  - destruct (policy_dispatch _ _ _ _) as [p [i|e]]; simpl; [|done].
    by destruct (dict_get _ _).
Qed.

(** Where [min] finds its result: before it every key is larger, after it
    no key is smaller. *)
Lemma py_min_from_first {A : Type} (key : A → Z) (best : A) (xs : list A) :
  (py_min_from key best xs = best ∧ ∀ y, y ∈ xs → key best ≤ key y)
  ∨ (key (py_min_from key best xs) < key best
     ∧ ∃ pre post, xs = (pre ++ py_min_from key best xs :: post)%list
         ∧ (∀ y, y ∈ pre → key (py_min_from key best xs) < key y)
         ∧ (∀ y, y ∈ post → key (py_min_from key best xs) ≤ key y)).
Proof.
  revert best. induction xs as [|x xs IH]; intros best; simpl.
  { left. split; [done|]. intros y Hy. by apply not_elem_of_nil in Hy. }
  destruct (Z.ltb_spec (key x) (key best)) as [Hlt|Hge].
  - right. destruct (IH x) as [[Heq Hall]|(Hm & pre & post & Hxs & Hpre & Hpost)].
    + rewrite Heq. split; [done|]. exists [], xs. split; [done|].
      split; [|done]. intros y Hy. by apply not_elem_of_nil in Hy.
    + split; [lia|]. exists (x :: pre), post. split; [by rewrite Hxs at 1|].
      split; [|done]. intros y [->|Hy]%elem_of_cons; auto.
  - destruct (IH best) as [[Heq Hall]|(Hm & pre & post & Hxs & Hpre & Hpost)].
    + left. split; [done|]. intros y [->|Hy]%elem_of_cons; auto.
    + right. split; [done|]. exists (x :: pre), post.
      split; [by rewrite Hxs at 1|]. split; [|done].
      intros y [->|Hy]%elem_of_cons; [lia | auto].
Qed.

Lemma py_min_first {A : Type} (key : A → Z) (xs : list A) m :
  py_min key xs = Return m →
  ∃ pre post, xs = (pre ++ m :: post)%list
    ∧ (∀ y, y ∈ pre → key m < key y)
    ∧ (∀ y, y ∈ post → key m ≤ key y).
Proof.
  destruct xs as [|best xs]; simpl; [done|]. intros [= <-].
  destruct (py_min_from_first key best xs)
    as [[Heq Hall]|(Hm & pre & post & Hxs & Hpre & Hpost)].
  - rewrite Heq. exists [], xs. split; [done|]. split; [|done].
    intros y Hy. by apply not_elem_of_nil in Hy.
  - exists (best :: pre), post. split; [by rewrite Hxs at 1|]. split; [|done].
    intros y [->|Hy]%elem_of_cons; auto.
Qed.

(** [max] is [min] on the negated keys. *)
Lemma py_max_from_min {A : Type} (key : A → Z) (best : A) (xs : list A) :
  py_max_from key best xs = py_min_from (λ x, - key x) best xs.
Proof.
  revert best. induction xs as [|x xs IH]; intros best; simpl; [done|].
  rewrite IH. f_equal.
  destruct (Z.ltb_spec (key best) (key x)), (Z.ltb_spec (- key x) (- key best));
    try done; lia.
Qed.

Lemma py_max_first {A : Type} (key : A → Z) (xs : list A) m :
  py_max key xs = Return m →
  ∃ pre post, xs = (pre ++ m :: post)%list
    ∧ (∀ y, y ∈ pre → key y < key m)
    ∧ (∀ y, y ∈ post → key y ≤ key m).
Proof.
  intros Hm.
  assert (py_min (λ x, - key x) xs = Return m) as Hmin.
  { destruct xs as [|best xs]; simpl in *; [done|].
    by rewrite <- py_max_from_min. }
  apply py_min_first in Hmin as (pre & post & Hxs & Hpre & Hpost).
  exists pre, post. split; [done|].
  split; intros y Hy; [specialize (Hpre y Hy) | specialize (Hpost y Hy)]; lia.
Qed.

Lemma dict_keys_nonempty {V : Type} (d : list (string * V)) :
  d ≠ [] → dict_keys d ≠ [].
Proof. by destruct d. Qed.

(** X7.  Under Balanced, [dispatch] on non-empty counters returns the first
    id, in the insertion order of the counters, whose counter is minimal. *)
Theorem balanced_dispatch_first_minimum (r : nat) (s : DispatchScheduler)
    (ptr : Z) :
  dispatch_policy s = Balanced ptr →
  instance_num_requests s ≠ [] →
  ∃ k pre post,
    snd (dispatch r s) = Return k
    ∧ dict_keys (instance_num_requests s) = (pre ++ k :: post)%list
    ∧ (∀ y, y ∈ pre → counts_get (instance_num_requests s) k
                      < counts_get (instance_num_requests s) y)
    ∧ (∀ y, y ∈ post → counts_get (instance_num_requests s) k
                       ≤ counts_get (instance_num_requests s) y).
Proof.
  intros Hp Hd.
  destruct (py_min (counts_get (instance_num_requests s))
              (dict_keys (instance_num_requests s))) as [k|e] eqn:Hk.
  2:{ apply dict_keys_nonempty in Hd.
      destruct (dict_keys (instance_num_requests s)); done. }
  destruct (py_min_first _ _ _ Hk) as (pre & post & Hkeys & Hpre & Hpost).
  exists k, pre, post. split; [|done].
  rewrite dispatch_outcome, Hp. cbn [policy_dispatch snd].
  unfold Balanced_dispatch. rewrite Hk.
  rewrite (proj2 (dict_contains_keys _ _)); [done|].
  rewrite Hkeys. apply elem_of_app. right. left.
Qed.

Lemma balanced_dispatch_first_minimum_witness :
  dispatch_policy (after_all (fresh (Balanced 0) 0) three_instances)
  = Balanced 0
  ∧ instance_num_requests (after_all (fresh (Balanced 0) 0) three_instances)
    ≠ []
  ∧ ∃ k pre post,
      snd (dispatch 0 (after_all (fresh (Balanced 0) 0) three_instances))
      = Return k
      ∧ dict_keys (instance_num_requests
           (after_all (fresh (Balanced 0) 0) three_instances))
        = (pre ++ k :: post)%list
      ∧ (∀ y, y ∈ pre →
           counts_get (instance_num_requests
             (after_all (fresh (Balanced 0) 0) three_instances)) k
           < counts_get (instance_num_requests
               (after_all (fresh (Balanced 0) 0) three_instances)) y)
      ∧ (∀ y, y ∈ post →
           counts_get (instance_num_requests
             (after_all (fresh (Balanced 0) 0) three_instances)) k
           ≤ counts_get (instance_num_requests
               (after_all (fresh (Balanced 0) 0) three_instances)) y).
Proof.
  assert (dispatch_policy (after_all (fresh (Balanced 0) 0) three_instances)
          = Balanced 0) as Hp by reflexivity.
  assert (instance_num_requests
            (after_all (fresh (Balanced 0) 0) three_instances) ≠ []) as Hd.
  { vm_compute. intros H. discriminate H. }
  split; [exact Hp|]. split; [exact Hd|].
  exact (balanced_dispatch_first_minimum 0 _ 0 Hp Hd).
Defined.

(** X8.  Under Flood, [dispatch] on non-empty counters returns the first id,
    in the insertion order of the counters, whose counter is maximal. *)
Theorem flood_dispatch_first_maximum (r : nat) (s : DispatchScheduler)
    (ptr : Z) :
  dispatch_policy s = Flood ptr →
  instance_num_requests s ≠ [] →
  ∃ k pre post,
    snd (dispatch r s) = Return k
    ∧ dict_keys (instance_num_requests s) = (pre ++ k :: post)%list
    ∧ (∀ y, y ∈ pre → counts_get (instance_num_requests s) y
                      < counts_get (instance_num_requests s) k)
    ∧ (∀ y, y ∈ post → counts_get (instance_num_requests s) y
                       ≤ counts_get (instance_num_requests s) k).
Proof.
  intros Hp Hd.
  destruct (py_max (counts_get (instance_num_requests s))
              (dict_keys (instance_num_requests s))) as [k|e] eqn:Hk.
  2:{ apply dict_keys_nonempty in Hd.
      destruct (dict_keys (instance_num_requests s)); done. }
  destruct (py_max_first _ _ _ Hk) as (pre & post & Hkeys & Hpre & Hpost).
  exists k, pre, post. split; [|done].
  rewrite dispatch_outcome, Hp. cbn [policy_dispatch snd].
  unfold Flood_dispatch. rewrite Hk.
  rewrite (proj2 (dict_contains_keys _ _)); [done|].
  rewrite Hkeys. apply elem_of_app. right. left.
Qed.

Lemma flood_dispatch_first_maximum_witness :
  dispatch_policy (after_all (fresh (Flood 0) 0) three_instances) = Flood 0
  ∧ instance_num_requests (after_all (fresh (Flood 0) 0) three_instances) ≠ []
  ∧ ∃ k pre post,
      snd (dispatch 0 (after_all (fresh (Flood 0) 0) three_instances))
      = Return k
      ∧ dict_keys (instance_num_requests
           (after_all (fresh (Flood 0) 0) three_instances))
        = (pre ++ k :: post)%list
      ∧ (∀ y, y ∈ pre →
           counts_get (instance_num_requests
             (after_all (fresh (Flood 0) 0) three_instances)) y
           < counts_get (instance_num_requests
               (after_all (fresh (Flood 0) 0) three_instances)) k)
      ∧ (∀ y, y ∈ post →
           counts_get (instance_num_requests
             (after_all (fresh (Flood 0) 0) three_instances)) y
           ≤ counts_get (instance_num_requests
               (after_all (fresh (Flood 0) 0) three_instances)) k).
Proof.
  assert (dispatch_policy (after_all (fresh (Flood 0) 0) three_instances)
          = Flood 0) as Hp by reflexivity.
  assert (instance_num_requests
            (after_all (fresh (Flood 0) 0) three_instances) ≠ []) as Hd.
  { vm_compute. intros H. discriminate H. }
  split; [exact Hp|]. split; [exact Hd|].
  exact (flood_dispatch_first_maximum 0 _ 0 Hp Hd).
Defined.

Lemma py_max_from_strict (key : string → Z) (best : string)
    (xs : list string) (k : string) :
  k ∈ best :: xs →
  (∀ y, y ∈ best :: xs → y ≠ k → key y < key k) →
  py_max_from key best xs = k.
Proof.
  revert best. induction xs as [|x xs IH]; intros best Hk Hlt; simpl.
  - apply elem_of_cons in Hk as [->|Hk]; [done|]. by apply not_elem_of_nil in Hk.
  - apply IH.
    + assert (x ∈ best :: x :: xs) as Hx by (right; left).
      assert (best ∈ best :: x :: xs) as Hb by left.
      rewrite !elem_of_cons in Hk. rewrite elem_of_cons.
      destruct (Z.ltb_spec (key best) (key x)) as [Hbx|Hxb].
      * destruct Hk as [->|[->|Hk]]; [|by left|by right].
        destruct (decide (x = best)) as [->|Hne]; [by left|].
        specialize (Hlt x Hx Hne). lia.
      * destruct Hk as [->|[->|Hk]]; [by left| |by right].
        destruct (decide (best = x)) as [->|Hne]; [by left|].
        specialize (Hlt best Hb Hne). lia.
    + intros y Hy. apply Hlt. rewrite !elem_of_cons in *.
      destruct (key best <? key x); naive_solver.
Qed.

Lemma flood_dispatch_step r s ptr k :
  dispatch_policy s = Flood ptr →
  Flood_dispatch (instance_num_requests s) None = Return k →
  snd (dispatch r s) = Return k
  ∧ dispatch_policy (fst (dispatch r s)) = Flood ptr
  ∧ Flood_dispatch (instance_num_requests (fst (dispatch r s))) None
    = Return k.
Proof.
  intros Hp Hk. unfold Flood_dispatch in Hk.
  destruct (py_max_first _ _ _ Hk) as (pre & post & Hkeys & Hpre & Hpost).
  assert (k ∈ dict_keys (instance_num_requests s)) as Hin.
  { rewrite Hkeys. apply elem_of_app. right. left. }
  assert (snd (dispatch r s) = Return k) as Hret.
  { rewrite dispatch_outcome, Hp. cbn [policy_dispatch snd].
    unfold Flood_dispatch. rewrite Hk.
    by rewrite (proj2 (dict_contains_keys _ _) Hin). }
  split; [done|]. split; [by rewrite dispatch_policy_after, Hp|].
  rewrite dispatch_counts, Hret. unfold Flood_dispatch.
  rewrite dict_keys_setitem_in by done.
  destruct (dict_keys (instance_num_requests s)) as [|k0 ks] eqn:Hks;
    [by apply not_elem_of_nil in Hin|].
  simpl. f_equal. apply py_max_from_strict; [done|].
  intros y Hy Hne. rewrite !counts_get_setitem, String.eqb_refl.
  destruct (String.eqb_spec k y) as [->|_]; [done|].
  rewrite Hkeys in Hy. apply elem_of_app in Hy as [Hy|Hy].
  - specialize (Hpre y Hy). lia.
  - apply elem_of_cons in Hy as [->|Hy]; [done|]. specialize (Hpost y Hy). lia.
Qed.

Lemma flood_dispatch_many rs s ptr k :
  dispatch_policy s = Flood ptr →
  Flood_dispatch (instance_num_requests s) None = Return k →
  snd (dispatch_many rs s) = (λ _, Return k) <$> rs.
Proof.
  revert s. induction rs as [|r rs IH]; intros s Hp Hk; simpl; [done|].
  destruct (flood_dispatch_step r s ptr k Hp Hk) as (Hret & Hp1 & Hk1).
  destruct (dispatch r s) as [s1 res]. simpl in *.
  specialize (IH s1 Hp1 Hk1).
  destruct (dispatch_many rs s1) as [s2 ress]. simpl in *.
  subst res ress. reflexivity.
Qed.

(** X9.  Under Flood, with no other call in between, every [dispatch] returns
    the same id: the first id of maximal counter at the start. *)
Theorem flood_concentrates (s : DispatchScheduler) (ptr : Z) :
  dispatch_policy s = Flood ptr →
  instance_num_requests s ≠ [] →
  ∃ k, k ∈ dict_keys (instance_num_requests s)
       ∧ (∀ y, y ∈ dict_keys (instance_num_requests s) →
               counts_get (instance_num_requests s) y
               ≤ counts_get (instance_num_requests s) k)
       ∧ ∀ rs, snd (dispatch_many rs s) = (λ _, Return k) <$> rs.
Proof.
  intros Hp Hd.
  destruct (Flood_dispatch (instance_num_requests s) None) as [k|e] eqn:Hk.
  2:{ apply dict_keys_nonempty in Hd. unfold Flood_dispatch in Hk.
      destruct (dict_keys (instance_num_requests s)); done. }
  exists k. pose proof Hk as Hk'. unfold Flood_dispatch in Hk'.
  destruct (py_max_first _ _ _ Hk') as (pre & post & Hkeys & Hpre & Hpost).
  split; [rewrite Hkeys; apply elem_of_app; right; left|].
  split; [|intros rs; by eapply flood_dispatch_many].
  intros y Hy. rewrite Hkeys in Hy. apply elem_of_app in Hy as [Hy|Hy].
  - specialize (Hpre y Hy). lia.
  - apply elem_of_cons in Hy as [->|Hy]; [lia|]. by apply Hpost.
Qed.

Lemma flood_concentrates_witness :
  dispatch_policy (after_all (fresh (Flood 0) 0) three_instances) = Flood 0
  ∧ instance_num_requests (after_all (fresh (Flood 0) 0) three_instances) ≠ []
  ∧ ∃ k, k ∈ dict_keys (instance_num_requests
                 (after_all (fresh (Flood 0) 0) three_instances))
       ∧ (∀ y, y ∈ dict_keys (instance_num_requests
                      (after_all (fresh (Flood 0) 0) three_instances)) →
               counts_get (instance_num_requests
                 (after_all (fresh (Flood 0) 0) three_instances)) y
               ≤ counts_get (instance_num_requests
                   (after_all (fresh (Flood 0) 0) three_instances)) k)
       ∧ ∀ rs, snd (dispatch_many rs
                      (after_all (fresh (Flood 0) 0) three_instances))
               = (λ _, Return k) <$> rs.
Proof.
  assert (dispatch_policy (after_all (fresh (Flood 0) 0) three_instances)
          = Flood 0) as Hp by reflexivity.
  assert (instance_num_requests
            (after_all (fresh (Flood 0) 0) three_instances) ≠ []) as Hd.
  { vm_compute. intros H. discriminate H. }
  split; [exact Hp|]. split; [exact Hd|].
  exact (flood_concentrates _ 0 Hp Hd).
Defined.

(** ** The RoundRobin policy *)

Lemma string_ltb_lt a b :
  String.ltb a b = true ↔ OrderedTypeEx.String_as_OT.lt a b.
Proof.
  rewrite <- OrderedTypeEx.String_as_OT.cmp_lt.
  unfold String.ltb, OrderedTypeEx.String_as_OT.cmp.
  destruct (String.compare a b); split; congruence.
Qed.

Lemma string_ltb_irrefl x : String.ltb x x = false.
Proof.
  unfold String.ltb. pose proof (String.compare_antisym x x) as H.
  destruct (String.compare x x); done.
Qed.

Lemma string_ltb_asym x y : String.ltb x y = true → String.ltb y x = false.
Proof.
  unfold String.ltb. rewrite (String.compare_antisym y x).
  destruct (String.compare x y); done.
Qed.

Lemma string_ltb_negtrans x y z :
  String.ltb y x = false → String.ltb z y = false → String.ltb z x = false.
Proof.
  intros Hyx Hzy. destruct (String.ltb z x) eqn:Hzx; [|done].
  apply string_ltb_lt in Hzx.
  destruct (String.compare x y) eqn:Hxy.
  - apply String.compare_eq_iff in Hxy as ->.
    apply string_ltb_lt in Hzx. congruence.
  - assert (String.ltb x y = true) as Hlt by (unfold String.ltb; by rewrite Hxy).
    apply string_ltb_lt in Hlt.
    pose proof (OrderedTypeEx.String_as_OT.lt_trans _ _ _ Hzx Hlt) as Hzy'.
    apply string_ltb_lt in Hzy'. congruence.
  - unfold String.ltb in Hyx. rewrite (String.compare_antisym y x), Hxy in Hyx.
    done.
Qed.

Lemma round_robin_order_Permutation s :
  round_robin_order s ≡ₚ dict_keys (instance_num_requests s).
Proof. apply py_sorted_asc_Permutation. Qed.

Lemma round_robin_step r s ptr prev :
  dispatch_policy s = RoundRobin ptr prev →
  instance_num_requests s ≠ [] →
  ∃ t, round_robin_order s
         !! Z.to_nat ((prev + 1) `mod` Z.of_nat (length (round_robin_order s)))
       = Some t
     ∧ snd (dispatch r s) = Return t
     ∧ dispatch_policy (fst (dispatch r s))
       = RoundRobin ptr
           ((prev + 1) `mod` Z.of_nat (length (round_robin_order s)))
     ∧ dict_keys (instance_num_requests (fst (dispatch r s)))
       = dict_keys (instance_num_requests s).
Proof.
  intros Hp Hd.
  pose proof (round_robin_order_Permutation s) as Hperm.
  assert (0 < Z.of_nat (length (round_robin_order s))) as HN.
  { rewrite (Permutation_length Hperm). apply dict_keys_nonempty in Hd.
    destruct (dict_keys (instance_num_requests s)); [done | simpl; lia]. }
  pose proof (Z.mod_pos_bound (prev + 1) _ HN) as Hcur.
  destruct (lookup_lt_is_Some_2 (round_robin_order s)
              (Z.to_nat ((prev + 1)
                         `mod` Z.of_nat (length (round_robin_order s)))))
    as [t Ht]; [lia|].
  assert (policy_dispatch r (RoundRobin ptr prev) (instance_num_requests s)
            (dispatch_view s)
          = (RoundRobin ptr
               ((prev + 1) `mod` Z.of_nat (length (round_robin_order s))),
             Return t)) as Hpd.
  { cbn [policy_dispatch]. unfold RoundRobin_dispatch.
    fold (round_robin_order s).
    rewrite (proj2 (Z.eqb_neq _ 0)) by lia. by rewrite Ht. }
  exists t. split; [done|]. split; [|split].
  - rewrite dispatch_outcome, Hp, Hpd. cbn [snd].
    rewrite (proj2 (dict_contains_keys _ _)); [done|].
    rewrite <- Hperm. by eapply list_elem_of_lookup_2.
  - by rewrite dispatch_policy_after, Hp, Hpd.
  - apply dispatch_frame.
Qed.

Lemma dispatch_many_length rs s :
  length (snd (dispatch_many rs s)) = length rs.
Proof.
  revert s. induction rs as [|r rs IH]; intros s; simpl; [done|].
  destruct (dispatch r s) as [s1 res]. specialize (IH s1).
  destruct (dispatch_many rs s1). simpl in *. by rewrite IH.
Qed.

Lemma round_robin_index (rs : list nat) (s : DispatchScheduler)
    (ptr prev : Z) (j : nat) :
  dispatch_policy s = RoundRobin ptr prev →
  instance_num_requests s ≠ [] →
  (j < length rs)%nat →
  snd (dispatch_many rs s) !! j
  = Return <$>
      (round_robin_order s
         !! Z.to_nat ((prev + 1 + Z.of_nat j)
                      `mod` Z.of_nat (length (round_robin_order s)))).
Proof.
  revert s prev j. induction rs as [|r rs IH]; intros s prev j Hp Hd Hj;
    simpl in *; [lia|].
  destruct (round_robin_step r s ptr prev Hp Hd) as (t & Ht & Hret & Hp1 & Hk1).
  destruct (dispatch r s) as [s1 res]. simpl in *. subst res.
  assert (round_robin_order s1 = round_robin_order s) as Ho
    by (unfold round_robin_order; by rewrite Hk1).
  assert (instance_num_requests s1 ≠ []) as Hd1.
  { intros E. rewrite E in Hk1. destruct (instance_num_requests s); done. }
  destruct j as [|j].
  - destruct (dispatch_many rs s1) as [s2 ress]. simpl.
    rewrite Z.add_0_r, Ht. done.
  - assert (j < length rs)%nat as Hj' by lia.
    specialize (IH s1 _ j Hp1 Hd1 Hj').
    destruct (dispatch_many rs s1) as [s2 ress]. simpl in *.
    rewrite IH, Ho. do 3 f_equal.
    rewrite <- Z.add_assoc, Zplus_mod_idemp_l. f_equal. lia.
Qed.

(** X10.  Under RoundRobin, with no other call in between, the [j]-th
    [dispatch] returns the id at position [(prev + 1 + j) mod N] of the sorted
    keys of the counters, where [prev] is the cursor at the start and [N]
    the number of counters. *)
Theorem round_robin_cycle (rs : list nat) (s : DispatchScheduler)
    (ptr prev : Z) (j : nat) :
  dispatch_policy s = RoundRobin ptr prev →
  instance_num_requests s ≠ [] →
  (j < length rs)%nat →
  snd (dispatch_many rs s) !! j
  = Return <$>
      (round_robin_order s
         !! Z.to_nat ((prev + 1 + Z.of_nat j)
                      `mod` Z.of_nat (length (round_robin_order s)))).
Proof. apply round_robin_index. Qed.

Lemma round_robin_cycle_witness :
  dispatch_policy (after_all (fresh (RoundRobin 0 (-1)) 0) three_instances)
  = RoundRobin 0 (-1)
  ∧ instance_num_requests
      (after_all (fresh (RoundRobin 0 (-1)) 0) three_instances) ≠ []
  ∧ (4 < length [0; 0; 0; 0; 0]%nat)%nat
  ∧ snd (dispatch_many [0; 0; 0; 0; 0]%nat
           (after_all (fresh (RoundRobin 0 (-1)) 0) three_instances)) !! 4%nat
    = Some (Return "b").
Proof.
  assert (dispatch_policy
            (after_all (fresh (RoundRobin 0 (-1)) 0) three_instances)
          = RoundRobin 0 (-1)) as Hp by reflexivity.
  assert (instance_num_requests
            (after_all (fresh (RoundRobin 0 (-1)) 0) three_instances) ≠ [])
    as Hd.
  { vm_compute. intros H. discriminate H. }
  assert (4 < length [0; 0; 0; 0; 0]%nat)%nat as Hj by (simpl; lia).
  split; [exact Hp|]. split; [exact Hd|]. split; [exact Hj|].
  rewrite (round_robin_cycle _ _ 0 (-1) 4 Hp Hd Hj). reflexivity.
Defined.

(** X11.  Under RoundRobin with the cursor of a fresh policy, as many
    [dispatch] calls as there are counters return the keys of the counters
    once each, in ascending order of the strings. *)
Theorem round_robin_full_cycle (rs : list nat) (s : DispatchScheduler)
    (ptr : Z) :
  dispatch_policy s = RoundRobin ptr (-1) →
  instance_num_requests s ≠ [] →
  length rs = length (dict_keys (instance_num_requests s)) →
  snd (dispatch_many rs s) = Return <$> round_robin_order s
  ∧ round_robin_order s ≡ₚ dict_keys (instance_num_requests s)
  ∧ StronglySorted (λ a b, String.ltb b a = false) (round_robin_order s).
Proof.
  intros Hp Hd Hlen.
  pose proof (round_robin_order_Permutation s) as Hperm.
  split; [|split; [done|]].
  - apply list_eq. intros j. rewrite list_lookup_fmap.
    destruct (decide (j < length rs)%nat) as [Hj|Hj].
    + rewrite (round_robin_index rs s ptr (-1) j Hp Hd Hj).
      do 2 f_equal. rewrite Z.mod_small.
      * lia.
      * rewrite (Permutation_length Hperm), <- Hlen. lia.
    + rewrite !lookup_ge_None_2; [done|..].
      * rewrite (Permutation_length Hperm), <- Hlen. lia.
      * rewrite dispatch_many_length. lia.
  - apply py_sorted_asc_StronglySorted.
    + apply string_ltb_asym.
    + apply string_ltb_negtrans.
Qed.

Lemma round_robin_full_cycle_witness :
  dispatch_policy (after_all (fresh (RoundRobin 0 (-1)) 0) three_instances)
  = RoundRobin 0 (-1)
  ∧ instance_num_requests
      (after_all (fresh (RoundRobin 0 (-1)) 0) three_instances) ≠ []
  ∧ length [0; 0; 0]%nat
    = length (dict_keys (instance_num_requests
        (after_all (fresh (RoundRobin 0 (-1)) 0) three_instances)))
  ∧ snd (dispatch_many [0; 0; 0]%nat
           (after_all (fresh (RoundRobin 0 (-1)) 0) three_instances))
    = Return <$> round_robin_order
        (after_all (fresh (RoundRobin 0 (-1)) 0) three_instances).
Proof.
  assert (dispatch_policy
            (after_all (fresh (RoundRobin 0 (-1)) 0) three_instances)
          = RoundRobin 0 (-1)) as Hp by reflexivity.
  assert (instance_num_requests
            (after_all (fresh (RoundRobin 0 (-1)) 0) three_instances) ≠ [])
    as Hd.
  { vm_compute. intros H. discriminate H. }
  assert (length [0; 0; 0]%nat
          = length (dict_keys (instance_num_requests
              (after_all (fresh (RoundRobin 0 (-1)) 0) three_instances))))
    as Hlen by reflexivity.
  split; [exact Hp|]. split; [exact Hd|]. split; [exact Hlen|].
  exact (proj1 (round_robin_full_cycle _ _ 0 Hp Hd Hlen)).
Defined.

(** ** The sorted view and the ranking policies *)





Lemma random_choice_Return {A : Type} (r : nat) (l : list A) (x : A) :
  random_choice r l = Return x → x ∈ l.
Proof.
  unfold random_choice. destruct (l !! _) as [y|] eqn:E; [|done].
  intros [= <-]. by eapply list_elem_of_lookup_2.
Qed.

Lemma queue_dispatch_view s ptr :
  dispatch_policy s = Queue ptr →
  dispatch_view s
  = Some (py_sorted_asc (getattr_lt attr_num_waiting_requests)
            (available_instance_infos s)).
Proof.
  intros Hp. unfold dispatch_view. rewrite Hp. cbn [is_Load_or_Queue].
  rewrite sort_instance_infos_view, Hp. done.
Qed.

(** The first entry of the view of Queue has the smallest queue. *)
Lemma queue_view_head s h t :
  py_sorted_asc (getattr_lt attr_num_waiting_requests)
    (available_instance_infos s) = h :: t →
  ∀ x, x ∈ available_instance_infos s →
       num_waiting_requests h ≤ num_waiting_requests x.
Proof.
  intros Hsorted x Hx.
  assert (available_instance_infos s ≠ []) as Hne
    by (intros E; rewrite E in Hx; by apply not_elem_of_nil in Hx).
  destruct (py_sorted_asc_head (getattr_lt attr_num_waiting_requests)
              (getattr_lt_irrefl _) (getattr_lt_asym _) (getattr_lt_negtrans _)
              _ Hne) as (h' & t' & Hs' & _ & Hmin).
  rewrite Hsorted in Hs'. injection Hs' as -> ->.
  specialize (Hmin x Hx). simpl in Hmin. by apply Z.ltb_ge in Hmin.
Qed.

(** X13.  Under Queue, whichever way the random choice falls, an id that
    [dispatch] returns is the id of an eligible snapshot entry whose queue is
    the shortest among the eligible entries. *)
Theorem queue_dispatch_shortest_queue (r : nat) (s : DispatchScheduler)
    (ptr : Z) (i : string) :
  dispatch_policy s = Queue ptr →
  snd (dispatch r s) = Return i →
  ∃ info, info ∈ available_instance_infos s
    ∧ instance_id info = i
    ∧ i ∈ available_dispatch_instance_set s
    ∧ ∀ x, x ∈ available_instance_infos s →
           num_waiting_requests info ≤ num_waiting_requests x.
Proof.
  intros Hp Hret. rewrite dispatch_outcome, Hp in Hret.
  cbn [policy_dispatch snd] in Hret.
  rewrite (queue_dispatch_view s ptr Hp) in Hret. unfold Queue_dispatch in Hret.
  destruct (py_sorted_asc _ _) as [|h t] eqn:Hsorted; [done|].
  destruct (random_choice r _) as [j|e] eqn:Hj; [|done].
  assert (j = i) as -> by (destruct (dict_contains _ j); congruence).
  apply random_choice_Return, list_elem_of_fmap in Hj as (info & -> & Hin).
  apply list_elem_of_filter in Hin as [Hdepth Hin].
  rewrite <- Hsorted, py_sorted_asc_Permutation in Hin.
  exists info. split; [done|]. split; [done|]. split.
  - by apply list_elem_of_filter in Hin as [? _].
  - rewrite Hdepth. by eapply queue_view_head.
Qed.

Lemma queue_dispatch_shortest_queue_witness :
  dispatch_policy (after_all (fresh (Queue 0) 0) two_loaded_instances)
  = Queue 0
  ∧ snd (dispatch 1 (after_all (fresh (Queue 0) 0) two_loaded_instances))
    = Return "b"
  ∧ ∃ info, info ∈ available_instance_infos
                     (after_all (fresh (Queue 0) 0) two_loaded_instances)
    ∧ instance_id info = "b"
    ∧ "b" ∈ available_dispatch_instance_set
              (after_all (fresh (Queue 0) 0) two_loaded_instances)
    ∧ ∀ x, x ∈ available_instance_infos
                 (after_all (fresh (Queue 0) 0) two_loaded_instances) →
           num_waiting_requests info ≤ num_waiting_requests x.
Proof.
  assert (dispatch_policy (after_all (fresh (Queue 0) 0) two_loaded_instances)
          = Queue 0) as Hp by reflexivity.
  assert (snd (dispatch 1 (after_all (fresh (Queue 0) 0) two_loaded_instances))
          = Return "b") as Hret by (vm_compute; reflexivity).
  split; [exact Hp|]. split; [exact Hret|].
  exact (queue_dispatch_shortest_queue 1 _ 0 "b" Hp Hret).
Defined.

(** X14.  Under Queue, every eligible snapshot entry with a shortest queue
    whose id has a request counter can be the one dispatched to: some
    outcome of the random choice makes [dispatch] return its id. *)
Theorem queue_dispatch_any_shortest (s : DispatchScheduler) (ptr : Z)
    (info : InstanceInfo) :
  dispatch_policy s = Queue ptr →
  info ∈ available_instance_infos s →
  (∀ x, x ∈ available_instance_infos s →
        num_waiting_requests info ≤ num_waiting_requests x) →
  instance_id info ∈ dict_keys (instance_num_requests s) →
  ∃ r, snd (dispatch r s) = Return (instance_id info).
Proof.
  intros Hp Hin Hmin Hcount.
  destruct (py_sorted_asc (getattr_lt attr_num_waiting_requests)
              (available_instance_infos s)) as [|h t] eqn:Hsorted.
  { rewrite <- (py_sorted_asc_Permutation
                  (getattr_lt attr_num_waiting_requests)), Hsorted in Hin.
    by apply not_elem_of_nil in Hin. }
  pose proof (queue_view_head s h t Hsorted) as Hh.
  assert (h ∈ available_instance_infos s) as Hhin.
  { rewrite <- (py_sorted_asc_Permutation
                  (getattr_lt attr_num_waiting_requests)), Hsorted. left. }
  assert (num_waiting_requests info = num_waiting_requests h) as Hdepth.
  { specialize (Hh info Hin). specialize (Hmin h Hhin). lia. }
  assert (instance_id info
          ∈ map instance_id
              (filter (λ x, num_waiting_requests x = num_waiting_requests h)
                 (h :: t))) as Hid.
  { apply list_elem_of_fmap. exists info. split; [done|].
    apply list_elem_of_filter. split; [done|].
    by rewrite <- Hsorted, py_sorted_asc_Permutation. }
  apply list_elem_of_lookup in Hid as [j Hj].
  exists j. rewrite dispatch_outcome, Hp. cbn [policy_dispatch snd].
  rewrite (queue_dispatch_view s ptr Hp), Hsorted. unfold Queue_dispatch.
  unfold random_choice.
  rewrite Nat.mod_small by (by apply lookup_lt_Some in Hj).
  rewrite Hj. by rewrite (proj2 (dict_contains_keys _ _) Hcount).
Qed.

Lemma queue_dispatch_any_shortest_witness :
  dispatch_policy (after_all (fresh (Queue 0) 0) two_loaded_instances)
  = Queue 0
  ∧ mkInstanceInfo "b" (1 # 2) 2
    ∈ available_instance_infos
        (after_all (fresh (Queue 0) 0) two_loaded_instances)
  ∧ (∀ x, x ∈ available_instance_infos
                (after_all (fresh (Queue 0) 0) two_loaded_instances) →
          2 ≤ num_waiting_requests x)
  ∧ "b" ∈ dict_keys (instance_num_requests
            (after_all (fresh (Queue 0) 0) two_loaded_instances))
  ∧ ∃ r, snd (dispatch r (after_all (fresh (Queue 0) 0) two_loaded_instances))
         = Return "b".
Proof.
  assert (dispatch_policy (after_all (fresh (Queue 0) 0) two_loaded_instances)
          = Queue 0) as Hp by reflexivity.
  assert (available_instance_infos
            (after_all (fresh (Queue 0) 0) two_loaded_instances)
          = [mkInstanceInfo "a" (3 # 1) 2; mkInstanceInfo "b" (1 # 2) 2])
    as Hview by (vm_compute; reflexivity).
  assert (mkInstanceInfo "b" (1 # 2) 2
          ∈ available_instance_infos
              (after_all (fresh (Queue 0) 0) two_loaded_instances)) as Hin.
  { rewrite Hview. right. left. }
  assert (∀ x, x ∈ available_instance_infos
                 (after_all (fresh (Queue 0) 0) two_loaded_instances) →
               2 ≤ num_waiting_requests x) as Hmin.
  { intros x. rewrite Hview.
    intros [->|[->|Hx]%elem_of_cons]%elem_of_cons; simpl; [lia..|].
    by apply not_elem_of_nil in Hx. }
  assert ("b" ∈ dict_keys (instance_num_requests
            (after_all (fresh (Queue 0) 0) two_loaded_instances))) as Hc.
  { vm_compute. right. left. }
  split; [exact Hp|]. split; [exact Hin|]. split; [exact Hmin|].
  split; [exact Hc|].
  exact (queue_dispatch_any_shortest _ 0 (mkInstanceInfo "b" (1 # 2) 2)
           Hp Hin Hmin Hc).
Defined.



(** ** [remove_instance] *)

(** X16.  After any history of calls on a scheduler with a positive capacity,
    [remove_instance] of a registered id returns: the backfill always finds
    an id to take. *)
Theorem remove_registered_returns (r : nat) (i : string)
    (s : DispatchScheduler) :
  reachable s →
  0 < num_dispatch_instances s →
  i ∈ instance_id_set s →
  snd (remove_instance r i s) = Return tt.
Proof.
  intros Hs HC Hin. apply reachable_consistent in Hs.
  destruct (decide (i ∈ available_dispatch_instance_set s)) as [Hel|Hnel].
  - by apply remove_instance_bounded_capacity.
  - by apply remove_instance_not_eligible.
Qed.

Lemma remove_registered_returns_witness :
  reachable (after_all (fresh (Balanced 0) 2) three_instances)
  ∧ 0 < num_dispatch_instances
          (after_all (fresh (Balanced 0) 2) three_instances)
  ∧ "b" ∈ instance_id_set (after_all (fresh (Balanced 0) 2) three_instances)
  ∧ snd (remove_instance 0 "b"
           (after_all (fresh (Balanced 0) 2) three_instances)) = Return tt.
Proof.
  assert (reachable (after_all (fresh (Balanced 0) 2) three_instances)) as Hs.
  { apply reachable_after_all.
    apply (reachable_init "balanced" mkInstanceLoadCalculator 2). reflexivity. }
  assert (0 < num_dispatch_instances
                (after_all (fresh (Balanced 0) 2) three_instances)) as HC
    by (vm_compute; reflexivity).
  assert ("b" ∈ instance_id_set
                  (after_all (fresh (Balanced 0) 2) three_instances)) as Hin
    by (vm_compute; reflexivity).
  split; [exact Hs|]. split; [exact HC|]. split; [exact Hin|].
  exact (remove_registered_returns 0 "b" _ Hs HC Hin).
Defined.

(** X17.  After any history of calls on a scheduler with capacity [C > 0],
    [remove_instance] of an eligible id backfills exactly when at least [C]
    ids stay registered: it then puts one registered id that was not
    eligible in the place of the removed one, so that the number of eligible
    ids is kept; otherwise the eligible ids only lose the removed one. *)
Theorem removal_backfill (r : nat) (i : string) (s : DispatchScheduler) :
  reachable s →
  0 < num_dispatch_instances s →
  i ∈ available_dispatch_instance_set s →
  (num_dispatch_instances s ≤ Z.of_nat (size (instance_id_set s ∖ {[i]})) →
   ∃ f, f ∈ instance_id_set s ∧ f ≠ i
        ∧ (f ∉ available_dispatch_instance_set s)
        ∧ available_dispatch_instance_set (fst (remove_instance r i s))
          = {[f]} ∪ (available_dispatch_instance_set s ∖ {[i]})
        ∧ size (available_dispatch_instance_set (fst (remove_instance r i s)))
          = size (available_dispatch_instance_set s))
  ∧ (Z.of_nat (size (instance_id_set s ∖ {[i]})) < num_dispatch_instances s →
     available_dispatch_instance_set (fst (remove_instance r i s))
     = available_dispatch_instance_set s ∖ {[i]}).
Proof.
  intros Hs HC Hel. apply reachable_consistent in Hs.
  destruct (remove_instance_bounded_capacity r i s Hs HC Hel)
    as (_ & Hfill & Hnofill).
  split; [|done]. intros Hle.
  destruct (Hfill Hle) as (f & Hf & Hne & Hnel & Heq).
  exists f. repeat split; try done.
  rewrite Heq, size_union by set_solver.
  rewrite size_singleton. pose proof (size_remove _ _ Hel). lia.
Qed.

Lemma removal_backfill_witness :
  reachable (after_all (fresh (Balanced 0) 2) three_instances)
  ∧ 0 < num_dispatch_instances
          (after_all (fresh (Balanced 0) 2) three_instances)
  ∧ "a" ∈ available_dispatch_instance_set
            (after_all (fresh (Balanced 0) 2) three_instances)
  ∧ num_dispatch_instances (after_all (fresh (Balanced 0) 2) three_instances)
    ≤ Z.of_nat (size (instance_id_set
         (after_all (fresh (Balanced 0) 2) three_instances) ∖ {["a"]}))
  ∧ size (available_dispatch_instance_set
            (fst (remove_instance 0 "a"
                    (after_all (fresh (Balanced 0) 2) three_instances))))
    = size (available_dispatch_instance_set
              (after_all (fresh (Balanced 0) 2) three_instances)).
Proof.
  assert (reachable (after_all (fresh (Balanced 0) 2) three_instances)) as Hs.
  { apply reachable_after_all.
    apply (reachable_init "balanced" mkInstanceLoadCalculator 2). reflexivity. }
  assert (0 < num_dispatch_instances
                (after_all (fresh (Balanced 0) 2) three_instances)) as HC
    by (vm_compute; reflexivity).
  assert ("a" ∈ available_dispatch_instance_set
                  (after_all (fresh (Balanced 0) 2) three_instances)) as Hel
    by (vm_compute; reflexivity).
  assert (num_dispatch_instances
            (after_all (fresh (Balanced 0) 2) three_instances)
          ≤ Z.of_nat (size (instance_id_set
               (after_all (fresh (Balanced 0) 2) three_instances) ∖ {["a"]})))
    as Hle by (vm_compute; discriminate).
  split; [exact Hs|]. split; [exact HC|]. split; [exact Hel|].
  split; [exact Hle|].
  destruct (proj1 (removal_backfill 0 "a" _ Hs HC Hel) Hle)
    as (f & _ & _ & _ & _ & Hsize).
  exact Hsize.
Defined.

(** X18.  After any history of calls, [remove_instance] of a registered id
    that is not eligible (a decode-only instance, or one registered beyond
    the capacity) returns and changes nothing but the set of registered ids
    and their number. *)
Theorem remove_not_eligible (r : nat) (i : string) (s : DispatchScheduler) :
  reachable s →
  i ∈ instance_id_set s →
  i ∉ available_dispatch_instance_set s →
  remove_instance r i s
  = (set_num_instances (Z.of_nat (size (instance_id_set s ∖ {[i]})))
       (set_instance_id_set (instance_id_set s ∖ {[i]}) s),
     Return tt).
Proof.
  intros Hs Hin Hnel. apply reachable_consistent in Hs.
  assert (dict_contains (instance_num_requests s) i = false) as Hc.
  { destruct (dict_contains (instance_num_requests s) i) eqn:E; [|done].
    apply dict_contains_keys, (counts_eligible s Hs) in E. contradiction. }
  unfold remove_instance. rewrite bool_decide_eq_true_2 by done. simpl.
  rewrite Hc. simpl. by rewrite bool_decide_eq_false_2.
Qed.

Lemma remove_not_eligible_witness :
  reachable (after_all (fresh (Balanced 0) 2) three_instances)
  ∧ "c" ∈ instance_id_set (after_all (fresh (Balanced 0) 2) three_instances)
  ∧ ("c" ∉ available_dispatch_instance_set
             (after_all (fresh (Balanced 0) 2) three_instances))
  ∧ snd (remove_instance 0 "c"
           (after_all (fresh (Balanced 0) 2) three_instances)) = Return tt.
Proof.
  assert (reachable (after_all (fresh (Balanced 0) 2) three_instances)) as Hs.
  { apply reachable_after_all.
    apply (reachable_init "balanced" mkInstanceLoadCalculator 2). reflexivity. }
  assert ("c" ∈ instance_id_set
                  (after_all (fresh (Balanced 0) 2) three_instances)) as Hin
    by (vm_compute; reflexivity).
  assert ("c" ∉ available_dispatch_instance_set
                  (after_all (fresh (Balanced 0) 2) three_instances)) as Hnel.
  { vm_compute. intros H. discriminate H. }
  split; [exact Hs|]. split; [exact Hin|]. split; [exact Hnel|].
  rewrite (remove_not_eligible 0 "c" _ Hs Hin Hnel). reflexivity.
Defined.

(** ** [add_instance] *)

Lemma dict_setitem_twice {V : Type} (d : list (string * V)) k v w :
  dict_setitem (dict_setitem d k v) k w = dict_setitem d k w.
Proof.
  induction d as [|[k0 v0] d IH]; simpl.
  - by rewrite String.eqb_refl.
  - destruct (String.eqb k0 k) eqn:E; simpl; rewrite E; [done|].
    by rewrite IH.
Qed.

Lemma dict_delitem_setitem_absent {V : Type} (d : list (string * V)) k v :
  k ∉ dict_keys d → dict_delitem (dict_setitem d k v) k = d.
Proof.
  induction d as [|[k0 v0] d IH]; simpl; intros Hk.
  - by rewrite String.eqb_refl.
  - apply not_elem_of_cons in Hk as [Hne Hk].
    destruct (String.eqb_spec k0 k) as [->|_]; [done|]. simpl.
    destruct (String.eqb_spec k0 k) as [->|_]; [done|]. by rewrite IH.
Qed.

Lemma add_instance_without_room (i : string) (s : DispatchScheduler) :
  str_contains "decode" i = true
  ∨ (0 < num_dispatch_instances s
     ∧ num_dispatch_instances s
       ≤ Z.of_nat (size (available_dispatch_instance_set s))) →
  add_instance i s
  = (set_num_instances (Z.of_nat (size ({[i]} ∪ instance_id_set s)))
       (set_instance_id_set ({[i]} ∪ instance_id_set s) s),
     Return tt).
Proof.
  intros H. unfold add_instance. simpl.
  destruct (str_contains "decode" i); simpl; [done|].
  destruct H as [?|[HC Hfull]]; [done|].
  rewrite (proj2 (Z.leb_gt _ _)) by lia.
  rewrite (proj2 (Z.ltb_ge _ _) Hfull), andb_false_r. done.
Qed.

(** X19.  [add_instance] of a decode-only id, or of any id while a positive
    capacity is used up, only registers the id: the eligible ids and the
    counters stay as they are. *)
Theorem add_instance_registers_only (i : string) (s : DispatchScheduler) :
  str_contains "decode" i = true
  ∨ (0 < num_dispatch_instances s
     ∧ num_dispatch_instances s
       ≤ Z.of_nat (size (available_dispatch_instance_set s))) →
  add_instance i s
  = (set_num_instances (Z.of_nat (size ({[i]} ∪ instance_id_set s)))
       (set_instance_id_set ({[i]} ∪ instance_id_set s) s),
     Return tt).
Proof. apply add_instance_without_room. Qed.

Lemma add_instance_registers_only_witness :
  (str_contains "decode" "d"%string = true
   ∨ (0 < num_dispatch_instances
            (after_all (fresh (Balanced 0) 2) three_instances)
      ∧ num_dispatch_instances
          (after_all (fresh (Balanced 0) 2) three_instances)
        ≤ Z.of_nat (size (available_dispatch_instance_set
             (after_all (fresh (Balanced 0) 2) three_instances)))))
  ∧ add_instance "d" (after_all (fresh (Balanced 0) 2) three_instances)
    = (set_num_instances
         (Z.of_nat (size ({["d"]} ∪ instance_id_set
            (after_all (fresh (Balanced 0) 2) three_instances))))
         (set_instance_id_set
            ({["d"]} ∪ instance_id_set
               (after_all (fresh (Balanced 0) 2) three_instances))
            (after_all (fresh (Balanced 0) 2) three_instances)),
       Return tt).
Proof.
  assert (str_contains "decode" "d"%string = true
          ∨ (0 < num_dispatch_instances
                   (after_all (fresh (Balanced 0) 2) three_instances)
             ∧ num_dispatch_instances
                 (after_all (fresh (Balanced 0) 2) three_instances)
               ≤ Z.of_nat (size (available_dispatch_instance_set
                    (after_all (fresh (Balanced 0) 2) three_instances)))))
    as H.
  { right. split; vm_compute; [reflexivity | discriminate]. }
  split; [exact H|].
  exact (add_instance_registers_only "d" _ H).
Defined.

Lemma add_instance_with_room (i : string) (s : DispatchScheduler) :
  str_contains "decode" i = false →
  num_dispatch_instances s ≤ 0
  ∨ Z.of_nat (size (available_dispatch_instance_set s))
    < num_dispatch_instances s →
  snd (add_instance i s) = Return tt
  ∧ instance_id_set (fst (add_instance i s)) = {[i]} ∪ instance_id_set s
  ∧ available_dispatch_instance_set (fst (add_instance i s))
    = {[i]} ∪ available_dispatch_instance_set s
  ∧ dict_get (instance_num_requests (fst (add_instance i s))) i = Some 0
  ∧ ∀ k, k ≠ i →
         dict_get (instance_num_requests (fst (add_instance i s))) k
         = dict_get (instance_num_requests s) k.
Proof.
  intros Hi Hroom. unfold add_instance. simpl. rewrite Hi. simpl.
  assert ((num_dispatch_instances s <=? 0)
          || (0 <? num_dispatch_instances s)
             && (Z.of_nat (size (available_dispatch_instance_set s))
                 <? num_dispatch_instances s) = true) as ->.
  { destruct Hroom as [H|H].
    - by rewrite (proj2 (Z.leb_le _ _) H).
    - rewrite (proj2 (Z.ltb_lt _ _) H), andb_true_r.
      destruct (Z.leb_spec (num_dispatch_instances s) 0); [done|].
      simpl. apply Z.ltb_lt. lia. }
  simpl. repeat split.
  - by rewrite dict_get_setitem, String.eqb_refl.
  - intros k Hk. rewrite dict_get_setitem.
    destruct (String.eqb_spec i k); congruence.
Qed.

(** X20.  [add_instance] of an id that is not decode-only, while the capacity
    is unbounded or not used up, makes the id registered and eligible and
    sets its counter to zero, also when the id was eligible before with a
    higher counter; the other counters stay as they are. *)
Theorem add_instance_resets_counter (i : string) (s : DispatchScheduler) :
  str_contains "decode" i = false →
  num_dispatch_instances s ≤ 0
  ∨ Z.of_nat (size (available_dispatch_instance_set s))
    < num_dispatch_instances s →
  snd (add_instance i s) = Return tt
  ∧ instance_id_set (fst (add_instance i s)) = {[i]} ∪ instance_id_set s
  ∧ available_dispatch_instance_set (fst (add_instance i s))
    = {[i]} ∪ available_dispatch_instance_set s
  ∧ dict_get (instance_num_requests (fst (add_instance i s))) i = Some 0
  ∧ ∀ k, k ≠ i →
         dict_get (instance_num_requests (fst (add_instance i s))) k
         = dict_get (instance_num_requests s) k.
Proof. apply add_instance_with_room. Qed.

Lemma add_instance_resets_counter_witness :
  str_contains "decode" "a"%string = false
  ∧ (num_dispatch_instances
       (fst (dispatch 0 (after_all (fresh (Balanced 0) 0) three_instances)))
     ≤ 0
     ∨ Z.of_nat (size (available_dispatch_instance_set
          (fst (dispatch 0
                  (after_all (fresh (Balanced 0) 0) three_instances)))))
       < num_dispatch_instances
           (fst (dispatch 0
                   (after_all (fresh (Balanced 0) 0) three_instances))))
  ∧ dict_get (instance_num_requests
       (fst (dispatch 0 (after_all (fresh (Balanced 0) 0) three_instances))))
      "a" = Some 1
  ∧ dict_get (instance_num_requests
       (fst (add_instance "a"
          (fst (dispatch 0
                  (after_all (fresh (Balanced 0) 0) three_instances))))))
      "a" = Some 0.
Proof.
  assert (str_contains "decode" "a"%string = false) as Hi by reflexivity.
  assert (num_dispatch_instances
            (fst (dispatch 0
                    (after_all (fresh (Balanced 0) 0) three_instances)))
          ≤ 0
          ∨ Z.of_nat (size (available_dispatch_instance_set
               (fst (dispatch 0
                       (after_all (fresh (Balanced 0) 0) three_instances)))))
            < num_dispatch_instances
                (fst (dispatch 0
                        (after_all (fresh (Balanced 0) 0) three_instances))))
    as Hroom.
  { left. vm_compute. discriminate. }
  split; [exact Hi|]. split; [exact Hroom|].
  split; [vm_compute; reflexivity|].
  exact (proj1 (proj2 (proj2 (proj2
           (add_instance_resets_counter "a" _ Hi Hroom))))).
Defined.

(** X21.  [add_instance] is idempotent: a second call with the same id
    leaves the scheduler as the first call left it. *)
Theorem add_instance_idempotent (i : string) (s : DispatchScheduler) :
  fst (add_instance i (fst (add_instance i s))) = fst (add_instance i s).
Proof.
  assert (∀ X : gset string, {[i]} ∪ ({[i]} ∪ X) = {[i]} ∪ X) as Hidem
    by set_solver.
  destruct s as [p calc n all avail C info sv nr cnt].
  unfold add_instance. simpl.
  destruct (str_contains "decode" i) eqn:Hi; simpl.
  { by rewrite Hidem. }
  destruct ((C <=? 0) || (0 <? C) && (Z.of_nat (size avail) <? C)) eqn:Hc;
    simpl.
  - destruct ((C <=? 0)
              || (0 <? C) && (Z.of_nat (size ({[i]} ∪ avail)) <? C));
      simpl; by rewrite !Hidem, ?dict_setitem_twice.
  - rewrite Hc. simpl. by rewrite Hidem.
Qed.

(** X22.  After any history of calls, registering an id that was not
    registered while fewer ids than the capacity are registered, and
    removing it again, gives back the scheduler as it was. *)
Theorem add_then_remove_restores (r : nat) (i : string)
    (s : DispatchScheduler) :
  reachable s →
  i ∉ instance_id_set s →
  Z.of_nat (size (instance_id_set s)) < num_dispatch_instances s →
  remove_instance r i (fst (add_instance i s)) = (s, Return tt).
Proof.
  intros Hs Hnot Hlt.
  pose proof (reachable_num_instances s Hs) as Hn.
  apply reachable_consistent in Hs.
  pose proof (eligible_registered s Hs) as Hreg.
  assert (i ∉ dict_keys (instance_num_requests s)) as Hk.
  { intros Hk. apply (counts_eligible s Hs) in Hk. set_solver. }
  assert (i ∉ available_dispatch_instance_set s) as Hnel by set_solver.
  assert (dict_contains (instance_num_requests s) i = false) as Hc.
  { destruct (dict_contains (instance_num_requests s) i) eqn:E; [|done].
    by apply dict_contains_keys in E. }
  pose proof (subseteq_size _ _ Hreg) as Hsize.
  clear Hs.
  destruct s as [p calc n all avail C info sv nr cnt]. simpl in *.
  assert (({[i]} ∪ all) ∖ {[i]} = all) as Hall by (clear -Hnot; set_solver).
  assert (({[i]} ∪ avail) ∖ {[i]} = avail) as Hav by (clear -Hnel; set_solver).
  assert (i ∈ {[i]} ∪ all) as Hin by (clear; set_solver).
  assert (i ∈ {[i]} ∪ avail) as Hin' by (clear; set_solver).
  unfold add_instance. simpl.
  destruct (str_contains "decode" i); simpl.
  - unfold remove_instance. simpl. rewrite bool_decide_eq_true_2 by done.
    simpl. rewrite Hc. simpl.
    rewrite bool_decide_eq_false_2 by done. by rewrite Hall, Hn.
  - rewrite (proj2 (Z.leb_gt _ _)) by lia.
    rewrite (proj2 (Z.ltb_lt _ _)) by lia.
    rewrite (proj2 (Z.ltb_lt _ _)) by lia. simpl.
    unfold remove_instance. simpl. rewrite bool_decide_eq_true_2 by done.
    simpl. rewrite (proj2 (dict_contains_keys _ _));
      [|by apply dict_keys_setitem; left].
    simpl. rewrite bool_decide_eq_true_2 by done. simpl.
    rewrite Hall, Hav. rewrite (proj2 (Z.leb_gt _ _)) by lia.
    by rewrite dict_delitem_setitem_absent, Hn.
Qed.

Lemma add_then_remove_restores_witness :
  reachable (after_all (fresh (Balanced 0) 4) three_instances)
  ∧ ("d" ∉ instance_id_set (after_all (fresh (Balanced 0) 4) three_instances))
  ∧ Z.of_nat (size (instance_id_set
         (after_all (fresh (Balanced 0) 4) three_instances)))
    < num_dispatch_instances
        (after_all (fresh (Balanced 0) 4) three_instances)
  ∧ remove_instance 0 "d"
      (fst (add_instance "d"
              (after_all (fresh (Balanced 0) 4) three_instances)))
    = (after_all (fresh (Balanced 0) 4) three_instances, Return tt).
Proof.
  assert (reachable (after_all (fresh (Balanced 0) 4) three_instances)) as Hs.
  { apply reachable_after_all.
    apply (reachable_init "balanced" mkInstanceLoadCalculator 4). reflexivity. }
  assert ("d" ∉ instance_id_set
                  (after_all (fresh (Balanced 0) 4) three_instances)) as Hnot.
  { vm_compute. intros H. discriminate H. }
  assert (Z.of_nat (size (instance_id_set
            (after_all (fresh (Balanced 0) 4) three_instances)))
          < num_dispatch_instances
              (after_all (fresh (Balanced 0) 4) three_instances)) as Hlt
    by (vm_compute; reflexivity).
  split; [exact Hs|]. split; [exact Hnot|]. split; [exact Hlt|].
  exact (add_then_remove_restores 0 "d" _ Hs Hnot Hlt).
Defined.

(** ** [update_instance_infos] *)

(** X23.  Under Flood, Balanced and RoundRobin the snapshot plays no part:
    [update_instance_infos] before a [dispatch] or after it gives the same
    scheduler, and the [dispatch] has the same outcome. *)
Theorem counting_policies_ignore_snapshot (r : nat)
    (snap : list (string * InstanceInfo)) (s : DispatchScheduler) :
  is_Load_or_Queue (dispatch_policy s) = false →
  dispatch r (fst (update_instance_infos snap s))
  = (fst (update_instance_infos snap (fst (dispatch r s))),
     snd (dispatch r s)).
Proof.
  intros Hp. unfold dispatch, update_instance_infos. simpl. rewrite Hp.
  simpl. destruct (policy_dispatch _ _ _ _) as [p [i|e]]; simpl; [|done].
  by destruct (dict_get _ _).
Qed.

Lemma counting_policies_ignore_snapshot_witness :
  is_Load_or_Queue
    (dispatch_policy (after_all (fresh (RoundRobin 0 (-1)) 0) three_instances))
  = false
  ∧ snd (dispatch 0
           (fst (update_instance_infos two_loads
                   (after_all (fresh (RoundRobin 0 (-1)) 0) three_instances))))
    = snd (dispatch 0
             (after_all (fresh (RoundRobin 0 (-1)) 0) three_instances)).
Proof.
  assert (is_Load_or_Queue
            (dispatch_policy
               (after_all (fresh (RoundRobin 0 (-1)) 0) three_instances))
          = false) as Hp by reflexivity.
  split; [exact Hp|].
  exact (f_equal snd (counting_policies_ignore_snapshot 0 two_loads _ Hp)).
Defined.

(** ** How the eligible set fills up *)

Lemma non_decode_only_empty : non_decode_only ∅ = ∅.
Proof.
  unfold non_decode_only. apply set_eq. intros x. rewrite elem_of_filter.
  set_solver.
Qed.

Lemma non_decode_only_insert_decode i (X : gset string) :
  str_contains "decode" i = true →
  non_decode_only ({[i]} ∪ X) = non_decode_only X.
Proof.
  intros Hi. unfold non_decode_only. apply set_eq. intros x.
  rewrite !elem_of_filter, elem_of_union, elem_of_singleton.
  split; [|naive_solver]. intros [Hx [->|?]]; [congruence | done].
Qed.

Lemma non_decode_only_insert i (X : gset string) :
  str_contains "decode" i = false →
  non_decode_only ({[i]} ∪ X) = {[i]} ∪ non_decode_only X.
Proof.
  intros Hi. unfold non_decode_only. apply set_eq. intros x.
  rewrite elem_of_union, !elem_of_filter, elem_of_union, elem_of_singleton.
  naive_solver.
Qed.

Lemma filled_add_instance i s :
  available_dispatch_instance_set s ⊆ non_decode_only (instance_id_set s)
  ∧ (num_dispatch_instances s ≤ 0 →
     available_dispatch_instance_set s = non_decode_only (instance_id_set s))
  ∧ (0 < num_dispatch_instances s →
     Z.of_nat (size (available_dispatch_instance_set s))
     = Z.min (num_dispatch_instances s)
         (Z.of_nat (size (non_decode_only (instance_id_set s))))) →
  available_dispatch_instance_set (fst (add_instance i s))
  ⊆ non_decode_only (instance_id_set (fst (add_instance i s)))
  ∧ (num_dispatch_instances s ≤ 0 →
     available_dispatch_instance_set (fst (add_instance i s))
     = non_decode_only (instance_id_set (fst (add_instance i s))))
  ∧ (0 < num_dispatch_instances s →
     Z.of_nat (size (available_dispatch_instance_set (fst (add_instance i s))))
     = Z.min (num_dispatch_instances s)
         (Z.of_nat (size (non_decode_only
                            (instance_id_set (fst (add_instance i s))))))).
Proof.
  intros (Hsub & Hunb & Hbnd).
  destruct (str_contains "decode" i) eqn:Hi.
  { rewrite add_instance_without_room by (by left). simpl.
    by rewrite non_decode_only_insert_decode. }
  destruct (decide (num_dispatch_instances s ≤ 0
                    ∨ Z.of_nat (size (available_dispatch_instance_set s))
                      < num_dispatch_instances s)) as [Hroom|Hfull].
  - destruct (add_instance_with_room i s Hi Hroom)
      as (_ & -> & -> & _). rewrite non_decode_only_insert by done.
    split; [set_solver|]. split.
    + intros HC. by rewrite Hunb.
    + intros HC. specialize (Hbnd HC).
      assert (available_dispatch_instance_set s
              = non_decode_only (instance_id_set s)) as Heq.
      { apply set_subseteq_size_eq; [done|]. lia. }
      rewrite Heq in *.
      pose proof (size_insert_le i (non_decode_only (instance_id_set s))).
      lia.
  - rewrite add_instance_without_room by (right; lia). simpl.
    rewrite non_decode_only_insert by done.
    split; [set_solver|]. split; [lia|].
    intros HC. specialize (Hbnd HC).
    assert (size (non_decode_only (instance_id_set s))
            ≤ size ({[i]} ∪ non_decode_only (instance_id_set s)))%nat
      by (apply subseteq_size; set_solver).
    lia.
Qed.

(** X24.  On a scheduler constructed with capacity [C], after any history of
    calls without [remove_instance]: the eligible ids are registered ids
    that are not decode-only; they are all of them when [C ≤ 0]; and when
    [C > 0] their number is the smaller of [C] and the number of registered
    ids that are not decode-only. *)
Theorem eligible_fill_without_removal (name : string)
    (calc : InstanceLoadCalculator) (C : Z) (s0 : DispatchScheduler)
    (cs : list call) :
  DispatchScheduler_init name calc C = Return s0 →
  forallb not_a_removal cs = true →
  available_dispatch_instance_set (after_all s0 cs)
  ⊆ non_decode_only (instance_id_set (after_all s0 cs))
  ∧ (C ≤ 0 →
     available_dispatch_instance_set (after_all s0 cs)
     = non_decode_only (instance_id_set (after_all s0 cs)))
  ∧ (0 < C →
     Z.of_nat (size (available_dispatch_instance_set (after_all s0 cs)))
     = Z.min C (Z.of_nat (size (non_decode_only
                                  (instance_id_set (after_all s0 cs)))))).
Proof.
  intros Hinit Hcs.
  pose proof (init_num_dispatch_instances _ _ _ _ Hinit) as HC.
  assert (available_dispatch_instance_set s0
          ⊆ non_decode_only (instance_id_set s0)
          ∧ (num_dispatch_instances s0 ≤ 0 →
             available_dispatch_instance_set s0
             = non_decode_only (instance_id_set s0))
          ∧ (0 < num_dispatch_instances s0 →
             Z.of_nat (size (available_dispatch_instance_set s0))
             = Z.min (num_dispatch_instances s0)
                 (Z.of_nat (size (non_decode_only (instance_id_set s0))))))
    as H0.
  { unfold DispatchScheduler_init in Hinit.
    destruct (get_policy name); [|done]. injection Hinit as <-.
    cbn [available_dispatch_instance_set instance_id_set
         num_dispatch_instances].
    rewrite non_decode_only_empty.
    split; [done|]. split; [done|]. rewrite size_empty. lia. }
  rewrite <- HC. clear Hinit HC. revert s0 H0.
  induction cs as [|c cs IH]; intros s0 H0; [done|].
  simpl in Hcs. apply andb_true_iff in Hcs as [Hc Hcs]. simpl.
  rewrite <- (after_num_dispatch_instances s0 c). apply IH; [done|].
  rewrite (after_num_dispatch_instances s0 c).
  destruct c as [i| |r|snap]; simpl; try done.
  - by apply filled_add_instance.
  - by pose proof (dispatch_frame r s0) as (-> & -> & _).
Qed.

Lemma eligible_fill_without_removal_witness :
  DispatchScheduler_init "balanced" mkInstanceLoadCalculator 2
  = Return (fresh (Balanced 0) 2)
  ∧ forallb not_a_removal three_instances = true
  ∧ 0 < 2
  ∧ Z.of_nat (size (available_dispatch_instance_set
       (after_all (fresh (Balanced 0) 2) three_instances)))
    = Z.min 2 (Z.of_nat (size (non_decode_only
        (instance_id_set (after_all (fresh (Balanced 0) 2) three_instances))))).
Proof.
  assert (DispatchScheduler_init "balanced" mkInstanceLoadCalculator 2
          = Return (fresh (Balanced 0) 2)) as Hinit by reflexivity.
  assert (forallb not_a_removal three_instances = true) as Hcs by reflexivity.
  assert (0 < 2) as HC by lia.
  split; [exact Hinit|]. split; [exact Hcs|]. split; [exact HC|].
  exact (proj2 (proj2 (eligible_fill_without_removal "balanced"
                         mkInstanceLoadCalculator 2 _ three_instances
                         Hinit Hcs)) HC).
Defined.

(** ** Decode-only instances, continued *)

Lemma decode_only_never_counted_witness :
  reachable (after_all (fresh (Load 0) 1)
               [call_add_instance "a"; call_add_instance "decode_0";
                call_remove_instance "a" 0])
  ∧ str_contains "decode" "decode_0" = true
  ∧ ("decode_0" ∉ dict_keys (instance_num_requests
        (after_all (fresh (Load 0) 1)
           [call_add_instance "a"; call_add_instance "decode_0";
            call_remove_instance "a" 0]))).
Proof.
  assert (reachable (after_all (fresh (Load 0) 1)
            [call_add_instance "a"; call_add_instance "decode_0";
             call_remove_instance "a" 0])) as Hs.
  { apply reachable_after_all.
    apply (reachable_init "load" mkInstanceLoadCalculator 1). reflexivity. }
  assert (str_contains "decode" "decode_0" = true) as Hi by reflexivity.
  split; [exact Hs|]. split; [exact Hi|].
  exact (decode_only_never_counted _ "decode_0" Hs Hi).
Defined.

Lemma decode_only_not_eligible_without_removal_witness :
  DispatchScheduler_init "load" mkInstanceLoadCalculator 0
  = Return (fresh (Load 0) 0)
  ∧ forallb not_a_removal
      [call_add_instance "a"; call_add_instance "decode_0"; call_dispatch 0]
    = true
  ∧ str_contains "decode" "decode_0" = true
  ∧ ("decode_0" ∉ available_dispatch_instance_set
        (after_all (fresh (Load 0) 0)
           [call_add_instance "a"; call_add_instance "decode_0";
            call_dispatch 0])).
Proof.
  assert (DispatchScheduler_init "load" mkInstanceLoadCalculator 0
          = Return (fresh (Load 0) 0)) as Hinit by reflexivity.
  assert (forallb not_a_removal
            [call_add_instance "a"; call_add_instance "decode_0";
             call_dispatch 0] = true) as Hcs by reflexivity.
  assert (str_contains "decode" "decode_0" = true) as Hi by reflexivity.
  split; [exact Hinit|]. split; [exact Hcs|]. split; [exact Hi|].
  exact (decode_only_not_eligible_without_removal "load"
           mkInstanceLoadCalculator 0 _ _ "decode_0" Hinit Hcs Hi).
Defined.
